(** * ai_medical_imaging.py: a Streamlit page around a two-node LangGraph agent

    The script uploads an image, stores it under a fixed temporary path,
    sends it with a fixed prompt to a chat model bound to one search tool,
    lets a chatbot/tools graph run, and renders the AI text.

    The embedding follows the script top to bottom.  What the script takes
    from its dependencies (the message classes of langchain_core, the
    StateGraph executor, ToolNode and tools_condition of langgraph, the
    image codec of PIL, Streamlit's widgets) is modelled in the modules
    [Py], [LangGraph], [Streamlit] and [PIL] as far as the script relies
    on it; the model client, the search tool, the image codec and the
    library's step limit stay parameters.  [App] is the script,
    [Conversation] holds the properties of conversations the claims are
    stated with, and the proofs follow. *)

From Stdlib Require Import String Ascii List Arith Lia Bool NArith Permutation.
From Stdlib Require Import Init.Byte.
From stdpp Require Import base option list gmap strings pretty.

Local Open Scope string_scope.
Local Open Scope list_scope.
Local Open Scope nat_scope.

(** ** Python values used by the script *)

Module Py.

(** An exception object, seen through [str(e)] and [repr(e)], the only two
    views the script and ToolNode take of it.  Only instances of
    [Exception] are modelled. *)
Record PyException := mkException { exc_str : string; exc_repr : string }.

(** Truthiness of a [str]: non-empty. *)
Definition truthy (s : string) : bool :=
  match s with EmptyString => false | String _ _ => true end.

(** [str.strip()] on a UTF-8 encoded text.  The characters removed are the
    ones for which [str.isspace] holds: U+0009..U+000D, U+001C..U+0020,
    U+0085, U+00A0, U+1680, U+2000..U+200A, U+2028, U+2029, U+202F, U+205F
    and U+3000.  [space_prefix s] is the number of bytes of the whitespace
    character [s] starts with, 0 when it starts with none. *)
Definition space_prefix (s : list N) : nat :=
  match s with
  | (b :: rest)%list =>
      if ((9 <=? b) && (b <=? 13) || (28 <=? b) && (b <=? 32))%N then 1
      else match b, rest with
           | 194%N, (c :: _)%list => if ((c =? 133) || (c =? 160))%N then 2 else 0
           | 225%N, (154%N :: 128%N :: _)%list => 3
           | 226%N, (128%N :: c :: _)%list =>
               if ((128 <=? c) && (c <=? 138) || (c =? 168) || (c =? 169) || (c =? 175))%N
               then 3 else 0
           | 226%N, (129%N :: 159%N :: _)%list => 3
           | 227%N, (128%N :: 128%N :: _)%list => 3
           | _, _ => 0
           end
  | nil => 0
  end.

(** The same test at the end of the text, on the reversed bytes. *)
Definition space_suffix (r : list N) : nat :=
  match r with
  | (b :: rest)%list =>
      if ((9 <=? b) && (b <=? 13) || (28 <=? b) && (b <=? 32))%N then 1
      else match rest with
           | (194%N :: _)%list => if ((b =? 133) || (b =? 160))%N then 2 else 0
           | (154%N :: 225%N :: _)%list => if (b =? 128)%N then 3 else 0
           | (128%N :: 226%N :: _)%list =>
               if ((128 <=? b) && (b <=? 138) || (b =? 168) || (b =? 169) || (b =? 175))%N
               then 3 else 0
           | (129%N :: 226%N :: _)%list => if (b =? 159)%N then 3 else 0
           | (128%N :: 227%N :: _)%list => if (b =? 128)%N then 3 else 0
           | _ => 0
           end
  | nil => 0
  end.

Fixpoint strip_with (test : list N -> nat) (fuel : nat) (s : list N) : list N :=
  match fuel with
  | 0 => s
  | S fuel' =>
      match test s with
      | 0 => s
      | n => strip_with test fuel' (drop n s)
      end
  end.

Definition bytes_of (s : string) : list N :=
  List.map N_of_ascii (list_ascii_of_string s).

Definition text_of (l : list N) : string :=
  string_of_list_ascii (List.map ascii_of_N l).

Definition lstrip_bytes (s : list N) : list N :=
  strip_with space_prefix (length s) s.

Definition rstrip_bytes (s : list N) : list N :=
  rev (strip_with space_suffix (length s) (rev s)).

Definition strip (s : string) : string :=
  text_of (rstrip_bytes (lstrip_bytes (bytes_of s))).

(** *** base64.b64encode

    Three bytes give four 6-bit groups, each written as a character of the
    alphabet; a last group of one or two bytes is filled up with "=". *)

Definition b64_alphabet : string :=
  "ABCDEFGHIJKLMNOPQRSTUVWXYZabcdefghijklmnopqrstuvwxyz0123456789+/".

Definition b64_char (n : N) : ascii :=
  match String.get (N.to_nat n) b64_alphabet with
  | Some c => c
  | None => "="%char
  end.

Definition byteN (b : byte) : N := Byte.to_N b.

Definition sextet1 (a : N) : N := N.shiftr a 2.
Definition sextet2 (a b : N) : N := N.lor (N.shiftl (N.land a 3) 4) (N.shiftr b 4).
Definition sextet3 (b c : N) : N := N.lor (N.shiftl (N.land b 15) 2) (N.shiftr c 6).
Definition sextet4 (c : N) : N := N.land c 63.

Fixpoint b64encode (data : list byte) : string :=
  match data with
  | [] => ""
  | [a] =>
      String (b64_char (sextet1 (byteN a)))
        (String (b64_char (sextet2 (byteN a) 0)) "==")
  | [a; b] =>
      String (b64_char (sextet1 (byteN a)))
        (String (b64_char (sextet2 (byteN a) (byteN b)))
           (String (b64_char (sextet3 (byteN b) 0)) "="))
  | a :: b :: c :: rest =>
      String (b64_char (sextet1 (byteN a)))
        (String (b64_char (sextet2 (byteN a) (byteN b)))
           (String (b64_char (sextet3 (byteN b) (byteN c)))
              (String (b64_char (sextet4 (byteN c))) (b64encode rest))))
  end.

(** Decoding of what [b64encode] writes. *)
Fixpoint index_from (c : ascii) (alphabet : string) (i : N) : option N :=
  match alphabet with
  | EmptyString => None
  | String d rest => if Ascii.eqb c d then Some i else index_from c rest (N.succ i)
  end.

Definition b64_index (c : ascii) : option N := index_from c b64_alphabet 0%N.

Definition octet1 (i1 i2 : N) : N := N.lor (N.shiftl i1 2) (N.shiftr i2 4).
Definition octet2 (i2 i3 : N) : N := N.lor (N.shiftl (N.land i2 15) 4) (N.shiftr i3 2).
Definition octet3 (i3 i4 : N) : N := N.lor (N.shiftl (N.land i3 3) 6) i4.

Definition is_pad (c : ascii) : bool := Ascii.eqb c "="%char.

Fixpoint b64decode (s : string) : option (list byte) :=
  match s with
  | EmptyString => Some []
  | String c1 (String c2 (String c3 (String c4 rest))) =>
      match b64_index c1, b64_index c2 with
      | Some i1, Some i2 =>
          if is_pad c3 then
            if is_pad c4 && String.eqb rest "" then
              match Byte.of_N (octet1 i1 i2) with
              | Some a => Some [a]
              | None => None
              end
            else None
          else
            match b64_index c3 with
            | Some i3 =>
                if is_pad c4 then
                  if String.eqb rest "" then
                    match Byte.of_N (octet1 i1 i2), Byte.of_N (octet2 i2 i3) with
                    | Some a, Some b => Some [a; b]
                    | _, _ => None
                    end
                  else None
                else
                  match b64_index c4, b64decode rest with
                  | Some i4, Some tail =>
                      match Byte.of_N (octet1 i1 i2), Byte.of_N (octet2 i2 i3),
                            Byte.of_N (octet3 i3 i4) with
                      | Some a, Some b, Some c => Some (a :: b :: c :: tail)
                      | _, _, _ => None
                      end
                  | _, _ => None
                  end
            | None => None
            end
      | _, _ => None
      end
  | _ => None
  end.

(** Checks over all 6-bit groups and over all pairs of bytes, run once in
    the proof that decoding undoes encoding. *)
Definition below (n : nat) : list N := List.map N.of_nat (seq 0 n).

Definition sextet_ok (i : N) : bool :=
  match b64_index (b64_char i) with
  | Some j => N.eqb j i && negb (is_pad (b64_char i))
  | None => false
  end.

Definition pair_ok (a b : N) : bool :=
  (sextet1 a <? 64)%N && (sextet2 a b <? 64)%N && (sextet3 a b <? 64)%N && (sextet4 a <? 64)%N
  && N.eqb (octet1 (sextet1 a) (sextet2 a b)) a
  && N.eqb (N.land (sextet2 a b) 15) (N.shiftr b 4)
  && N.eqb (N.shiftr (sextet3 a b) 2) (N.land a 15)
  && N.eqb (N.land (sextet3 a b) 3) (N.shiftr b 6)
  && N.eqb (N.lor (N.shiftl (N.shiftr a 4) 4) (N.land a 15)) a
  && N.eqb (N.lor (N.shiftl (N.shiftr a 6) 6) (sextet4 a)) a.


End Py.

(** ** The parts of langchain_core and langgraph the script uses *)

Module LangGraph.
Import Py.

(** One content part of the user message. *)
Inductive Part :=
| TextPart (text : string)
| ImageUrlPart (url : string) (detail : string).

(** A tool call carried by an AI message: [{"name", "args", "id"}]. *)
Record ToolCall := mkToolCall {
  tc_name : string;
  tc_args : list (string * string);
  tc_id : string
}.

(** The message classes of langchain_core that occur in the graph state.
    The user message dict of the script is coerced by [add_messages] to a
    [HumanMessage]; the chat model returns [AIMessage]s whose content is a
    text; ToolNode returns [ToolMessage]s. *)
Inductive Message :=
| HumanMessage (content : list Part)
| AIMessage (content : string) (tool_calls : list ToolCall)
| ToolMessage (content : string) (name : string) (tool_call_id : string).

(** The [type] attribute of the three classes. *)
Definition msg_type (m : Message) : string :=
  match m with
  | HumanMessage _ => "human"
  | AIMessage _ _ => "ai"
  | ToolMessage _ _ _ => "tool"
  end.

(** What the model client does on one call: return an AI message or raise. *)
Inductive LlmOutcome :=
| LlmReply (content : string) (tool_calls : list ToolCall)
| LlmRaise (e : PyException).

(** What a tool does on one call: return a text or raise. *)
Inductive ToolOutcome :=
| ToolReturn (output : string)
| ToolRaise (e : PyException).

(** A tool: its registered name and its behaviour.  The behaviour may
    differ from one call to the next, so it also receives the number of
    tool calls of the run that completed before this one. *)
Record Tool := mkTool {
  tool_name : string;
  tool_invoke : nat -> list (string * string) -> ToolOutcome
}.

(** The effects of a run that the claims speak of: the conversations
    passed to the model client, oldest first, the number of tool calls
    made, and the nodes executed, oldest first. *)
Record Ext := mkExt {
  sent : list (list Message);
  tool_runs : nat;
  visited : list string
}.

Definition Ext0 : Ext := mkExt nil 0 nil.

Definition llm_calls (x : Ext) : nat := length (sent x).

(** Computations of a run: they thread [Ext] and may raise. *)
Definition Run (A : Type) : Type := Ext -> (PyException + A) * Ext.

Definition ret {A} (a : A) : Run A := fun x => (inr a, x).
Definition raise {A} (e : PyException) : Run A := fun x => (inl e, x).
Definition bind {A B} (m : Run A) (k : A -> Run B) : Run B :=
  fun x => match m x with
           | (inl e, x') => (inl e, x')
           | (inr a, x') => k a x'
           end.
Definition lift {A} (r : PyException + A) : Run A := fun x => (r, x).
Definition visit (node : string) : Run unit :=
  fun x => (inr tt, mkExt (sent x) (tool_runs x) (visited x ++ [node])).

Notation "'do' x <- m ; k" := (bind m (fun x => k))
  (at level 10, x name, m at level 100, k at level 200).

Definition Node : Type := list Message -> Run (list Message).
Definition Router : Type := list Message -> PyException + string.

Definition END : string := "__end__".

(** [add_messages], the reducer of the [messages] channel: the update is
    appended.  (Messages are merged by id only when an update repeats the
    id of a message of the state; the ids are fresh here.) *)
Definition add_messages (left right : list Message) : list Message :=
  left ++ right.

Definition ValueError (msg : string) : PyException :=
  mkException msg ("ValueError('" +:+ msg +:+ "')").

(** [tools_condition]: route to the node "tools" when the last message is
    an AI message with at least one tool call, to the end otherwise. *)
Definition tools_condition (state : list Message) : PyException + string :=
  match last state with
  | None => inl (ValueError "No messages found in input state to tool_edge")
  | Some (AIMessage _ (_ :: _)) => inr "tools"
  | Some _ => inr END
  end.

(** *** ToolNode *)

Fixpoint tools_by_name (tools : list Tool) (name : string) : option Tool :=
  match tools with
  | [] => None
  | t :: rest => if String.eqb (tool_name t) name then Some t else tools_by_name rest name
  end.

Fixpoint join (sep : string) (l : list string) : string :=
  match l with
  | [] => ""
  | [s] => s
  | s :: rest => s +:+ sep +:+ join sep rest
  end.

Definition invalid_tool_text (available : list string) (requested : string) : string :=
  "Error: " +:+ requested +:+ " is not a valid tool, try one of ["
  +:+ join ", " available +:+ "].".

Definition tool_error_text (e : PyException) : string :=
  "Error: " +:+ exc_repr e +:+ "
 Please fix your mistakes.".

(** One tool call: the tool is looked up by name and invoked with the
    arguments; its output, or with [handle_tool_errors] the description of
    its failure, comes back as a [ToolMessage] with the id of the call. *)
Definition run_one (tools : list Tool) (handle_tool_errors : bool)
    (rank : nat) (call : ToolCall) : PyException + Message :=
  match tools_by_name tools (tc_name call) with
  | None =>
      inr (ToolMessage (invalid_tool_text (List.map tool_name tools) (tc_name call))
             (tc_name call) (tc_id call))
  | Some t =>
      match tool_invoke t rank (tc_args call) with
      | ToolReturn out => inr (ToolMessage out (tc_name call) (tc_id call))
      | ToolRaise e =>
          if handle_tool_errors
          then inr (ToolMessage (tool_error_text e) (tc_name call) (tc_id call))
          else inl e
      end
  end.

(** The calls of one step run on a thread pool.  [finish i] is the time at
    which call number [i] completes; [completion_order] lists the numbered
    calls in the order in which they complete (ties in the order of
    submission). *)
Fixpoint insert_by_finish (finish : nat -> nat) (c : nat * ToolCall)
    (l : list (nat * ToolCall)) : list (nat * ToolCall) :=
  match l with
  | [] => [c]
  | d :: l' =>
      if (finish (fst c) <=? finish (fst d))%nat then c :: d :: l'
      else d :: insert_by_finish finish c l'
  end.

Definition completion_order (finish : nat -> nat) (calls : list ToolCall)
    : list (nat * ToolCall) :=
  foldr (insert_by_finish finish) [] (imap pair calls).

(** The futures of the pool, by submission number, each holding the result
    of its call. *)
Definition futures (tools : list Tool) (handle_tool_errors : bool)
    (finish : nat -> nat) (done_before : nat) (calls : list ToolCall)
    : gmap nat (PyException + Message) :=
  list_to_map
    (imap (fun rank c => (fst c, run_one tools handle_tool_errors (done_before + rank) (snd c)))
       (completion_order finish calls)).

(** [executor.map] hands the results over in the order of submission and
    re-raises the first exception it meets. *)
Fixpoint collect (results : list (PyException + Message)) : PyException + list Message :=
  match results with
  | [] => inr []
  | inl e :: _ => inl e
  | inr m :: rest =>
      match collect rest with
      | inl e => inl e
      | inr ms => inr (m :: ms)
      end
  end.

Definition executor_map (fs : gmap nat (PyException + Message)) (n : nat)
    : list (PyException + Message) :=
  omap (fun i => fs !! i) (seq 0 n).

(** [ToolNode(tools)] called on the state: every tool call of the last AI
    message is run, and the tool messages are the update.  [finish b] is
    the completion time of the calls of a batch started after [b] tool
    runs. *)
Definition ToolNode (tools : list Tool) (handle_tool_errors : bool)
    (finish : nat -> nat -> nat) : Node :=
  fun state x =>
    match last state with
    | None => (inl (ValueError "No message found in input"), x)
    | Some (AIMessage _ calls) =>
        let fs := futures tools handle_tool_errors (finish (tool_runs x)) (tool_runs x) calls in
        (collect (executor_map fs (length calls)),
         mkExt (sent x) (tool_runs x + length calls) (visited x))
    | Some _ => (inl (ValueError "Last message is not an AIMessage"), x)
    end.

(** *** StateGraph *)

Record StateGraph := mkStateGraph {
  nodes : list (string * Node);
  edges : list (string * string);
  branches : list (string * Router);
  entry_point : option string
}.

Definition empty_graph : StateGraph := mkStateGraph [] [] [] None.

Definition add_node (name : string) (f : Node) (g : StateGraph) : StateGraph :=
  mkStateGraph (nodes g ++ [(name, f)]) (edges g) (branches g) (entry_point g).

Definition add_edge (src dst : string) (g : StateGraph) : StateGraph :=
  mkStateGraph (nodes g) (edges g ++ [(src, dst)]) (branches g) (entry_point g).

Definition add_conditional_edges (src : string) (path : Router) (g : StateGraph)
    : StateGraph :=
  mkStateGraph (nodes g) (edges g) (branches g ++ [(src, path)]) (entry_point g).

Definition set_entry_point (name : string) (g : StateGraph) : StateGraph :=
  mkStateGraph (nodes g) (edges g) (branches g) (Some name).

Fixpoint assoc {A} (key : string) (l : list (string * A)) : option A :=
  match l with
  | [] => None
  | (k, v) :: rest => if String.eqb k key then Some v else assoc key rest
  end.

(** The node that runs after [node]: the target chosen by its conditional
    edge, else the target of its edge, else the end. *)
Definition successor (g : StateGraph) (node : string) (state : list Message)
    : PyException + string :=
  match assoc node (branches g) with
  | Some path => path state
  | None =>
      match assoc node (edges g) with
      | Some dst => inr dst
      | None => inr END
      end
  end.

(** The error of a run that used up its steps.  The library adds a
    second line with the address of its troubleshooting page to the
    message (the address is that of langgraph 0.2); [repr] shows the line
    break escaped. *)
Definition GraphRecursionError (limit : nat) : PyException :=
  let msg := "Recursion limit of " +:+ pretty limit
             +:+ " reached without hitting a stop condition. You can increase the limit by setting the `recursion_limit` config key." in
  let visit_line := "For troubleshooting, visit: https://python.langchain.com/docs/troubleshooting/errors/GRAPH_RECURSION_LIMIT" in
  mkException (msg +:+ "
" +:+ visit_line)
    ("GraphRecursionError('" +:+ msg +:+ "\n" +:+ visit_line +:+ "')").

(** The executor.  One node runs per super-step; its update is merged into
    the state and the next node is chosen.  Before it looks for the next
    node the executor checks the step limit: once [limit] super-steps have
    run, the run is aborted with [GraphRecursionError], so a run succeeds
    when it reaches the end in fewer than [limit] super-steps.  [steps] is
    what is left of the limit. *)
Fixpoint pregel_loop (g : StateGraph) (limit steps : nat) (node : string)
    (state : list Message) : Run (list Message) :=
  match steps with
  | 0 => raise (GraphRecursionError limit)
  | S steps' =>
      if String.eqb node END then ret state
      else
        match assoc node (nodes g) with
        | None => raise (ValueError ("Unknown node " +:+ node))
        | Some f =>
            do seen <- visit node;
            do update <- f state;
            let state' := add_messages state update in
            do next <- lift (successor g node state');
            pregel_loop g limit steps' next state'
        end
  end.

(** [graph.compile().invoke(state, {"recursion_limit": limit})], for a
    limit of 1 or more.  (A limit below 1 the library refuses with a
    ValueError before the run starts; the script calls [invoke] without a
    config, so its runs have the library's default limit, 25.) *)
Definition invoke (g : StateGraph) (limit : nat) (state : list Message)
    : Run (list Message) :=
  match entry_point g with
  | None => raise (ValueError "Graph must have an entrypoint")
  | Some start => pregel_loop g limit limit start (add_messages [] state)
  end.

End LangGraph.

(** ** Streamlit: the page as a trace of elements, and the script's world *)

Module Streamlit.
Import Py LangGraph.

Inductive Container :=
| Sidebar | Page | UploadContainer | ImageContainer | AnalysisContainer.

Inductive Element :=
| Title (text : string)
| Write (text : string)
| Caption (text : string)
| Info (text : string)
| Success (text : string)
| Warning (text : string)
| Error (text : string)
| Markdown (text : string)
| TextInput (label : string)
| Button (label : string)
| FileUploader (label : string) (types : list string)
| ShowImage (caption : string)
| Spinner (text : string).

Definition UiEvent : Type := Container * Element.

(** The file handed over by [st.file_uploader]. *)
Record UploadedFile := mkUploadedFile {
  upload_name : string;
  upload_data : list byte
}.

(** What the user did before this execution of the script: the text in the
    key field, the reset button, the file in the uploader (one of the
    listed types), the Analyze button. *)
Record Inputs := mkInputs {
  in_api_key : string;
  in_reset : bool;
  in_upload : option UploadedFile;
  in_analyze : bool
}.

(** What the script reads and writes: the files of the working directory,
    [st.session_state.OPENAI_API_KEY] ([None] also when the slot is not
    yet there), the elements put on the page so far, and the effects of
    the graph run. *)
Record World := mkWorld {
  files : gmap string (list byte);
  OPENAI_API_KEY : option string;
  ui : list UiEvent;
  ext : Ext
}.

(** How an execution of the script can stop early: an exception nobody
    caught, or [st.rerun()]. *)
Inductive Stop :=
| Raised (e : PyException)
| RerunRequested.

Definition Script (A : Type) : Type := World -> (Stop + A) * World.

Definition sret {A} (a : A) : Script A := fun w => (inr a, w).
Definition sbind {A B} (m : Script A) (k : A -> Script B) : Script B :=
  fun w => match m w with
           | (inl s, w') => (inl s, w')
           | (inr a, w') => k a w'
           end.
Definition sraise {A} (e : PyException) : Script A := fun w => (inl (Raised e), w).
Definition rerun {A} : Script A := fun w => (inl RerunRequested, w).

Definition emit (c : Container) (e : Element) : Script unit :=
  fun w => (inr tt, mkWorld (files w) (OPENAI_API_KEY w) (ui w ++ [(c, e)]) (ext w)).

Definition get_key : Script (option string) :=
  fun w => (inr (OPENAI_API_KEY w), w).
Definition set_key (k : option string) : Script unit :=
  fun w => (inr tt, mkWorld (files w) k (ui w) (ext w)).

Definition write_file (path : string) (data : list byte) : Script unit :=
  fun w => (inr tt, mkWorld (<[path := data]> (files w)) (OPENAI_API_KEY w) (ui w) (ext w)).

Definition FileNotFoundError (path : string) : PyException :=
  mkException ("[Errno 2] No such file or directory: '" +:+ path +:+ "'")
    ("FileNotFoundError(2, 'No such file or directory')").

Definition read_file (path : string) : Script (list byte) :=
  fun w => match files w !! path with
           | Some data => (inr data, w)
           | None => (inl (Raised (FileNotFoundError path)), w)
           end.

Definition os_path_exists (path : string) : Script bool :=
  fun w => (inr (bool_decide (is_Some (files w !! path))), w).

Definition os_remove (path : string) : Script unit :=
  fun w => match files w !! path with
           | Some _ => (inr tt, mkWorld (delete path (files w)) (OPENAI_API_KEY w) (ui w) (ext w))
           | None => (inl (Raised (FileNotFoundError path)), w)
           end.

(** A fallible library call, and a graph run, inside the script. *)
Definition of_result {A} (r : PyException + A) : Script A :=
  fun w => match r with
           | inl e => (inl (Raised e), w)
           | inr a => (inr a, w)
           end.

Definition of_run {A} (m : Run A) : Script A :=
  fun w => match m (ext w) with
           | (inl e, x) => (inl (Raised e), mkWorld (files w) (OPENAI_API_KEY w) (ui w) x)
           | (inr a, x) => (inr a, mkWorld (files w) (OPENAI_API_KEY w) (ui w) x)
           end.

(** [try: body  except Exception as e: handler(e)  finally: final].  The
    handler sees what the body raised; [final] runs on every way out, and
    what was on its way out (a value, [st.rerun()], an exception of the
    handler) goes on afterwards unless [final] itself stops. *)
Definition try_except_finally (body : Script unit)
    (handler : PyException -> Script unit) (final : Script unit) : Script unit :=
  fun w =>
    let (r, w1) := body w in
    let (r', w2) := match r with
                    | inl (Raised e) => handler e w1
                    | _ => (r, w1)
                    end in
    let (rf, w3) := final w2 in
    match rf with
    | inl s => (inl s, w3)
    | inr _ => (r', w3)
    end.

Notation "'run' x <- m ; k" := (sbind m (fun x => k))
  (at level 10, x name, m at level 100, k at level 200).
Notation "'exec' m ; k" := (sbind m (fun _ => k))
  (at level 10, m at level 100, k at level 200).

(** World updates, for stating what a block of the script leaves behind. *)
Definition add_ui (evs : list UiEvent) (w : World) : World :=
  mkWorld (files w) (OPENAI_API_KEY w) (ui w ++ evs) (ext w).

Definition set_ext (x : Ext) (w : World) : World :=
  mkWorld (files w) (OPENAI_API_KEY w) (ui w) x.

Definition remove_file (path : string) (w : World) : World :=
  mkWorld (delete path (files w)) (OPENAI_API_KEY w) (ui w) (ext w).

Definition put_file (path : string) (data : list byte) (w : World) : World :=
  mkWorld (<[path := data]> (files w)) (OPENAI_API_KEY w) (ui w) (ext w).

Definition with_key (k : option string) (w : World) : World :=
  mkWorld (files w) k (ui w) (ext w).

(** What a write that failed after the path was opened leaves: a file
    that was there is empty, and none is there when none was. *)
Definition save_failed (path : string) (w : World) : World :=
  match files w !! path with
  | Some _ => put_file path [] w
  | None => w
  end.

(** Elements outside the analysis container. *)
Definition outside_analysis (e : UiEvent) : Prop := e.1 <> AnalysisContainer.

(** Truthiness of the key slot: set and non-empty. *)
Definition key_truthy (k : option string) : bool :=
  match k with
  | Some s => truthy s
  | None => false
  end.

End Streamlit.

(** ** PIL: the format [Image.save] picks from the file name *)

Module PIL.
Import Py.

(** The registered extensions the script can meet. *)
Definition format_of_extension (ext : string) : option string :=
  if String.eqb ext ".png" then Some "PNG"
  else if String.eqb ext ".jpg" then Some "JPEG"
  else if String.eqb ext ".jpeg" then Some "JPEG"
  else None.

(** [os.path.splitext(path)[1]] for a path without directory part: from
    the last dot on, when something other than a dot stands before it. *)
Fixpoint last_dot (s : string) (pos : nat) (seen_other : bool) : option nat :=
  match s with
  | EmptyString => None
  | String c rest =>
      match last_dot rest (S pos) (seen_other || negb (Ascii.eqb c "."%char)) with
      | Some p => Some p
      | None => if Ascii.eqb c "."%char && seen_other then Some pos else None
      end
  end.

Definition splitext_ext (path : string) : string :=
  match last_dot path 0 false with
  | Some p => String.substring p (String.length path - p) path
  | None => ""
  end.

Definition unknown_extension (ext : string) : PyException :=
  mkException ("unknown file extension: " +:+ ext)
    ("ValueError('unknown file extension: " +:+ ext +:+ "')").

End PIL.

(** ** The script *)

Module App.
Import Py LangGraph Streamlit PIL.

(** The name under which [DuckDuckGoSearchRun] registers. *)
Definition ddg_name : string := "duckduckgo_search".

(** [ToolNode(tools=tools)]: the error handling is left at its default,
    which is [handle_tool_errors=True] in langgraph 0.2, the releases the
    script was written against (it pins none). *)
Definition default_handle_tool_errors : bool := true.

Definition query : string := "
You are a highly skilled university professor of radiology and medical imaging with extensive knowledge in diagnostic imaging. 
Explain this image to your students as accurately as possible and structure your response as follows (always only text):

### 1. Image Type & Region
- Specify imaging modality (X-ray/MRI/CT/Ultrasound/etc.)
- Identify the patient's anatomical region and positioning
- Comment on image quality and technical adequacy

### 2. Key Findings
- List primary observations systematically
- Note any abnormalities in the patient's imaging with precise descriptions
- Include measurements and densities where relevant
- Describe location, size, shape, and characteristics
- Rate severity: Normal/Mild/Moderate/Severe

### 3. Diagnostic Assessment
- Provide primary diagnosis with confidence level
- List differential diagnoses in order of likelihood
- Support each diagnosis with observed evidence from the patient's imaging
- Note any critical or urgent findings

### 4. Patient-Friendly Explanation
- Explain the findings in simple, clear language that the patient can understand
- Avoid medical jargon or provide clear definitions
- Include visual analogies if helpful
- Address common patient concerns related to these findings

### 5. Research Context
IMPORTANT: Use the DuckDuckGo search tool to:
- Find recent medical literature about similar cases
- Search for standard treatment protocols
- Provide a list of relevant medical links
- Research any relevant technological advances
- Include 2-3 key references to support your analysis

Format your response using clear markdown headers and bullet points. Be concise yet thorough.
".

Definition image_path : string := "temp_medical_image.png".

(** What [message.content] can be. *)
Inductive Content :=
| Text (s : string)
| Parts (ps : list Part).

Definition content (m : Message) : Content :=
  match m with
  | HumanMessage ps => Parts ps
  | AIMessage s _ => Text s
  | ToolMessage s _ _ => Text s
  end.

Definition content_truthy (c : Content) : bool :=
  match c with
  | Text s => truthy s
  | Parts ps => match ps with [] => false | _ :: _ => true end
  end.

Definition dquote : string := String (ascii_of_nat 34) "".

Definition TypeError_concat : PyException :=
  let msg := "can only concatenate str (not " +:+ dquote +:+ "list" +:+ dquote +:+ ") to str" in
  mkException msg ("TypeError('" +:+ msg +:+ "')").

(** [combined_response += value]. *)
Definition iadd (combined_response : string) (value : Content) : PyException + string :=
  match value with
  | Text s => inr (combined_response +:+ s)
  | Parts _ => inl TypeError_concat
  end.

(** Elements of the analysis container. *)
Definition spinner : UiEvent :=
  (AnalysisContainer, Spinner "🔄 Analyzing image... Please wait.").

Definition no_agent_warning : UiEvent :=
  (AnalysisContainer,
   Warning "No agent is configured. Please ensure you have provided your OpenAI key.").

Definition missing_response : UiEvent :=
  (AnalysisContainer, Error "AI response content is missing or improperly formatted.").

(** A model client that requests a tool on each of its first [k] calls
    and then answers [answer]. *)
Definition stub_call (i : nat) : ToolCall :=
  mkToolCall ddg_name [("query", "chest x-ray findings")] ("call_" +:+ pretty i).

Definition stub_requests (k : nat) (answer : string) (i : nat) (_ : list Message)
    : LlmOutcome :=
  if (i <? k)%nat then LlmReply "" [stub_call i] else LlmReply answer [].

(** A model client that requests a tool on every call. *)
Definition stub_always (i : nat) (_ : list Message) : LlmOutcome :=
  LlmReply "" [stub_call i].

(** A model client that gives every request the same id, twice, then
    answers. *)
Definition stub_same_id (i : nat) (_ : list Message) : LlmOutcome :=
  if (i <? 2)%nat then LlmReply "" [mkToolCall ddg_name [("query", "q")] "a"]
  else LlmReply "done" [].

(** A model client that requests two tool calls "a" and "b" at once, then
    answers. *)
Definition stub_two_calls (i : nat) (_ : list Message) : LlmOutcome :=
  if (i <? 1)%nat
  then LlmReply "" [mkToolCall ddg_name [("query", "first")] "a";
                    mkToolCall ddg_name [("query", "second")] "b"]
  else LlmReply "both read" [].

(** Search tools: one that answers, one that always fails. *)
Definition search_ok (rank : nat) (args : list (string * string)) : ToolOutcome :=
  ToolReturn ("result " +:+ pretty rank).

Definition search_down : PyException :=
  mkException "Ratelimit" "DuckDuckGoSearchException('Ratelimit')".

Definition search_fails (rank : nat) (args : list (string * string)) : ToolOutcome :=
  ToolRaise search_down.

Section Script.

(** The image codec: what [Image.open] makes of the uploaded bytes, and
    the encoder [Image.save] runs for a format.  [Image_open] stands for
    identifying and decoding the upload: PIL decodes when [save] begins,
    before it touches the path, and the script does nothing between the
    two calls, so a failure of either leaves the same behind.
    [Image_encode] is the encoder alone, which runs once the path is open
    for writing; the PNG encoder raises for an image mode it cannot write
    (CMYK, for one: "cannot write mode CMYK as PNG"). *)
Variable Image : Type.
Variable Image_open : list byte -> PyException + Image.
Variable Image_encode : Image -> string -> PyException + list byte.

(** [ChatOpenAI(model="gpt-4o-mini", temperature=0.7, openai_api_key=key)
    .bind_tools(tools)]: what its [i]-th [invoke] of the run returns for a
    conversation. *)
Variable ChatOpenAI : string -> nat -> list Message -> LlmOutcome.

(** [DuckDuckGoSearchRun()]: what the search returns. *)
Variable ddg_search : nat -> list (string * string) -> ToolOutcome.

(** Completion times of the tool calls of a batch. *)
Variable finish : nat -> nat -> nat.

(** The library's step limit for [invoke] without a config. *)
Variable recursion_limit : nat.

(** [str] of a list of content parts. *)
Variable str_parts : list Part -> string.

Definition str_content (c : Content) : string :=
  match c with
  | Text s => s
  | Parts ps => str_parts ps
  end.

(** [image.save(path)].  The format comes from the extension.  The path
    is opened with mode "w+b", which empties or creates the file, before
    the encoder runs; when the encoder raises, [save] removes the file if
    it had created it, and lets the exception go on: a file that was there
    before is left empty. *)
Definition Image_save (image : Image) (path : string) : Script unit :=
  match format_of_extension (splitext_ext path) with
  | None => sraise (unknown_extension (splitext_ext path))
  | Some format =>
      run there <- os_path_exists path;
      let created := negb there in
      exec write_file path [];
      match Image_encode image format with
      | inr data => write_file path data
      | inl e =>
          exec (if created then os_remove path else sret tt);
          sraise e
      end
  end.

(** Lines 85-88. *)
Definition chatbot (llm_with_tools : nat -> list Message -> LlmOutcome) : Node :=
  fun state x =>
    let x' := mkExt (sent x ++ [state]) (tool_runs x) (visited x) in
    match llm_with_tools (llm_calls x) state with
    | LlmReply c calls => (inr [AIMessage c calls], x')
    | LlmRaise e => (inl e, x')
    end.

Definition ddg_tool : Tool := mkTool ddg_name ddg_search.
Definition tools : list Tool := [ddg_tool].
Definition tool_node : Node := ToolNode tools default_handle_tool_errors finish.

(** Lines 91-100. *)
Definition graph_builder (llm_with_tools : nat -> list Message -> LlmOutcome)
    : StateGraph :=
  set_entry_point "chatbot"
    (add_edge "tools" "chatbot"
       (add_conditional_edges "chatbot" tools_condition
          (add_node "tools" tool_node
             (add_node "chatbot" (chatbot llm_with_tools) empty_graph)))).

(** Lines 71-102: the agent exists only when a key is set. *)
Definition build_agent : Script (option StateGraph) :=
  run key <- get_key;
  match key with
  | Some k =>
      if truthy k then sret (Some (graph_builder (ChatOpenAI k)))
      else exec emit Page (Warning "Please configure your OpenAI API Key in the sidebar to continue.");
           sret None
  | None =>
      exec emit Page (Warning "Please configure your OpenAI API Key in the sidebar to continue.");
      sret None
  end.

(** The agent the script ends up with for a key slot, and the warning it
    shows when there is none. *)
Definition agent_for (key : option string) : option StateGraph :=
  match key with
  | Some k => if truthy k then Some (graph_builder (ChatOpenAI k)) else None
  | None => None
  end.

Definition page_warning : UiEvent :=
  (Page, Warning "Please configure your OpenAI API Key in the sidebar to continue.").

(** Lines 36-66. *)
Definition sidebar (inp : Inputs) : Script unit :=
  exec emit Sidebar (Title "ℹ️ Configuration");
  run key <- get_key;
  exec (if negb (key_truthy key) then
         exec emit Sidebar (TextInput "Enter your OpenAI API Key:");
         exec emit Sidebar (Caption "Get your API key from [OpenAI Platform](https://platform.openai.com/account/api-keys) 🔑");
         if truthy (in_api_key inp) then
           exec set_key (Some (in_api_key inp));
           exec emit Sidebar (Success "API Key saved!");
           rerun
         else sret tt
       else
         exec emit Sidebar (Success "API Key is configured");
         exec emit Sidebar (Button "🔄 Reset API Key");
         if in_reset inp then
           exec set_key None;
           rerun
         else sret tt);
  exec emit Sidebar (Info "This tool provides AI-powered analysis of medical imaging data using advanced computer vision and radiological expertise.");
  emit Sidebar (Warning "⚠DISCLAIMER: This tool is for educational and informational purposes only. All analyses should be reviewed by qualified healthcare professionals. Do not make medical decisions based solely on this analysis.").

(** Lines 194-210. *)
Definition initial_state (encoded_image : string) : list Message :=
  [HumanMessage [TextPart query;
                 ImageUrlPart ("data:image/png;base64," +:+ encoded_image) "low"]].

(** Lines 219-228, one turn of the loop. *)
Definition extract_step (combined_response : string) (message : Message)
    : PyException + string :=
  if String.eqb (msg_type message) "ai" then
    if content_truthy (content message)
    then iadd combined_response (content message)
    else inr combined_response
  else if String.eqb (msg_type message) "tool_call" then
    if content_truthy (content message)
    then inr (combined_response +:+ "

### Tool Result:
" +:+ str_content (content message))
    else inr combined_response
  else inr combined_response.

Fixpoint extract_from (combined_response : string) (messages : list Message)
    : PyException + string :=
  match messages with
  | [] => inr combined_response
  | message :: rest =>
      match extract_step combined_response message with
      | inl e => inl e
      | inr combined_response' => extract_from combined_response' rest
      end
  end.

Definition extract (messages : list Message) : PyException + string :=
  extract_from "" messages.

(** Lines 192-237, the body of the [try]. *)
Definition analysis (medical_agent : option StateGraph) (encoded_image : string)
    : Script unit :=
  match medical_agent with
  | Some agent =>
      run result_state <- of_run (invoke agent recursion_limit (initial_state encoded_image));
      run combined_response <- of_result (extract result_state);
      if truthy (strip combined_response) then
        exec emit AnalysisContainer (Markdown "### 📋 Analysis Results");
        emit AnalysisContainer (Markdown combined_response)
      else
        emit AnalysisContainer (Error "AI response content is missing or improperly formatted.")
  | None =>
      emit AnalysisContainer (Warning "No agent is configured. Please ensure you have provided your OpenAI key.")
  end.

(** Lines 238-239. *)
Definition report (e : PyException) : Script unit :=
  emit AnalysisContainer (Error ("Analysis error: " +:+ exc_str e)).

(** Lines 240-243. *)
Definition cleanup : Script unit :=
  run there <- os_path_exists image_path;
  if there then os_remove image_path else sret tt.

(** Lines 164-186: the image is opened, saved under [image_path], read
    back and encoded; the result is [encoded_image]. *)
Definition image_section (uploaded_file : UploadedFile) : Script string :=
  run image <- of_result (Image_open (upload_data uploaded_file));
  exec Image_save image image_path;
  run data <- read_file image_path;
  exec emit ImageContainer (ShowImage "Uploaded Medical Image");
  exec emit ImageContainer (Button "🔍 Analyze Image");
  sret (b64encode data).

(** Lines 188-243. *)
Definition analysis_section (medical_agent : option StateGraph)
    (encoded_image : string) (analyze_button : bool) : Script unit :=
  if analyze_button then
    exec emit AnalysisContainer (Spinner "🔄 Analyzing image... Please wait.");
    try_except_finally (analysis medical_agent encoded_image) report cleanup
  else sret tt.

(** One execution of the script, top to bottom. *)
Definition script (inp : Inputs) : Script unit :=
  exec sidebar inp;
  run medical_agent <- build_agent;
  exec emit Page (Title "🏥 Medical Imaging Diagnosis Agent");
  exec emit Page (Write "Upload a medical image for professional analysis");
  exec emit UploadContainer (FileUploader "Upload Medical Image" ["jpg"; "jpeg"; "png"]);
  match in_upload inp with
  | Some uploaded_file =>
      run encoded_image <- image_section uploaded_file;
      analysis_section medical_agent encoded_image (in_analyze inp)
  | None =>
      emit Page (Info "👆 Please upload a medical image to begin analysis")
  end.

(** An execution starts on an empty page, before any graph run, with the
    files and the key slot as the last execution left them. *)
Definition execute (inp : Inputs) (fs : gmap string (list byte))
    (key : option string) : (Stop + unit) * World :=
  script inp (mkWorld fs key [] Ext0).

End Script.

(** *** Stand-ins for running the script on an example

    An image codec that takes the bytes as the image and encodes them
    unchanged, an upload of three bytes under a JPEG name with the Analyze
    button pressed, tool calls that complete in the reverse order of their
    submission, and the execution of the script with them from an empty
    directory. *)
Definition demo_open (data : list byte) : PyException + list byte := inr data.
Definition demo_encode (image : list byte) (format : string) : PyException + list byte :=
  inr image.
Definition demo_upload : UploadedFile :=
  mkUploadedFile "scan.jpg" [x4d; x61; x6e]%byte.
Definition demo_inputs : Inputs := mkInputs "" false (Some demo_upload) true.
Definition demo_finish (done_before i : nat) : nat := 10 - i.

(** An upload the interface accepts and PIL opens, but which the PNG
    encoder rejects, as it does a JPEG in CMYK. *)
Definition cannot_write_cmyk : PyException :=
  mkException "cannot write mode CMYK as PNG" "OSError('cannot write mode CMYK as PNG')".
Definition cmyk_encode (image : list byte) (format : string) : PyException + list byte :=
  if String.eqb format "PNG" then inl cannot_write_cmyk else inr image.
Definition demo_str_parts (ps : list Part) : string := "[...]".

Definition demo_execute (llm : nat -> list Message -> LlmOutcome)
    (search : nat -> list (string * string) -> ToolOutcome)
    (limit : nat) (key : option string) : (Stop + unit) * World :=
  execute (list byte) demo_open demo_encode (fun _ => llm) search demo_finish
    limit demo_str_parts demo_inputs ∅ key.

End App.

(** ** Properties of conversations *)

Module Conversation.
Import Py LangGraph.

(** The ids of the tool calls a message requests. *)
Definition request_ids (m : Message) : list string :=
  match m with
  | AIMessage _ calls => List.map tc_id calls
  | _ => []
  end.

Definition requests_in (conv : list Message) : list string :=
  List.concat (List.map request_ids conv).

(** Every tool message carries the id of a request made before it: of at
    least one with [exactly_one = false], of exactly one with
    [exactly_one = true].  [seen] holds the ids requested so far. *)
Fixpoint results_match (exactly_one : bool) (seen : list string)
    (conv : list Message) : bool :=
  match conv with
  | [] => true
  | ToolMessage _ _ id :: rest =>
      (if exactly_one
       then Nat.eqb (count_occ string_dec seen id) 1
       else Nat.leb 1 (count_occ string_dec seen id))
      && results_match exactly_one seen rest
  | m :: rest => results_match exactly_one (seen ++ request_ids m) rest
  end.

Definition is_result_for (id : string) (m : Message) : bool :=
  match m with
  | ToolMessage _ _ id' => String.eqb id' id
  | _ => false
  end.

(** Every request is followed, later in the conversation, by a tool
    message with its id. *)
Fixpoint requests_answered (conv : list Message) : bool :=
  match conv with
  | [] => true
  | m :: rest =>
      forallb (fun id => existsb (is_result_for id) rest) (request_ids m)
      && requests_answered rest
  end.

(** The id a tool message answers. *)
Definition result_id (m : Message) : option string :=
  match m with
  | ToolMessage _ _ id => Some id
  | _ => None
  end.

(** The text of an AI message, nothing for the other messages. *)
Definition ai_text (m : Message) : string :=
  match m with
  | AIMessage s _ => s
  | _ => ""
  end.

Definition concat_texts (l : list string) : string :=
  fold_right String.append "" l.

(** [m] is what ToolNode, handling tool errors, returns for [call] when
    the call completes at some rank. *)
Definition answers (tools : list Tool) (call : ToolCall) (m : Message) : Prop :=
  exists rank, run_one tools true rank call = inr m.

(** The text the extraction loop builds from a conversation. *)
Definition combined (conv : list Message) : string :=
  concat_texts (List.map ai_text conv).

(** What a call of the model client can come to. *)
Definition requests_tool (o : LlmOutcome) : Prop :=
  exists c call calls, o = LlmReply c (call :: calls).

Definition answers_directly (o : LlmOutcome) : Prop :=
  exists a, o = LlmReply a [].

(** The numbers of reasoning steps and of tool steps of a run. *)
Definition reason_steps (x : Ext) : nat :=
  length (List.filter (String.eqb "chatbot") (visited x)).

Definition act_transitions (x : Ext) : nat :=
  length (List.filter (String.eqb "tools") (visited x)).

(** [n] nodes visited in turn, starting with [node]. *)
Fixpoint walk (n : nat) (node next : string) : list string :=
  match n with
  | 0 => []
  | S n' => node :: walk n' next node
  end.


(** [k] rounds of chatbot and tools. *)
Fixpoint rounds (k : nat) : list string :=
  match k with
  | 0 => []
  | S k' => "chatbot" :: "tools" :: rounds k'
  end.

(** One round of the cycle as the graph runs it, without the step limit:
    the chatbot node on the conversation and, when its reply requests
    tools, the tools node on the conversation with that reply.  The result
    is the conversation and the effects before the next reasoning step;
    there is none when the reply requests no tool or a node raises. *)
Definition cycle_round (ddg_search : nat -> list (string * string) -> ToolOutcome)
    (finish : nat -> nat -> nat) (llm : nat -> list Message -> LlmOutcome)
    (s : list Message * Ext) : option (list Message * Ext) :=
  match (do seen <- visit "chatbot"; App.chatbot llm s.1) s.2 with
  | (inr [AIMessage c (call :: calls)], x1) =>
      let state1 := add_messages s.1 [AIMessage c (call :: calls)] in
      match (do seen <- visit "tools"; App.tool_node ddg_search finish state1) x1 with
      | (inr outs, x2) => Some (add_messages state1 outs, x2)
      | (inl _, _) => None
      end
  | _ => None
  end.

(** The conversation and the effects after [k] rounds, when each of the
    first [k] reasoning steps requests tools: what the model client is
    given on its call number [k] (the calls are counted from 0). *)
Fixpoint after_rounds (ddg_search : nat -> list (string * string) -> ToolOutcome)
    (finish : nat -> nat -> nat) (llm : nat -> list Message -> LlmOutcome)
    (k : nat) (s : list Message * Ext) : option (list Message * Ext) :=
  match k with
  | 0 => Some s
  | S k' =>
      match cycle_round ddg_search finish llm s with
      | Some s' => after_rounds ddg_search finish llm k' s'
      | None => None
      end
  end.

End Conversation.

(** ** Notions the further properties are stated with *)

Module Runs.
Import Py LangGraph Streamlit App Conversation.

Definition is_ai (m : Message) : bool := String.eqb (msg_type m) "ai".

(** What a call of the model client adds to the conversation, and the
    text in it. *)
Definition reply_messages (o : LlmOutcome) : list Message :=
  match o with
  | LlmReply c calls => [AIMessage c calls]
  | LlmRaise _ => []
  end.

Definition reply_text (o : LlmOutcome) : string :=
  match o with
  | LlmReply c _ => c
  | LlmRaise _ => ""
  end.

(** The replies of the model client to the conversations it was sent; the
    number of a call is its place in the list. *)
Definition replies (llm : nat -> list Message -> LlmOutcome)
    (inputs : list (list Message)) : list LlmOutcome :=
  imap llm inputs.

(** [b] is [a] with at least one message more at its end. *)
Definition extends (a b : list Message) : Prop :=
  exists more, more <> [] /\ b = a ++ more.

(** Each conversation of the list extends all the earlier ones. *)
Fixpoint increasing (l : list (list Message)) : Prop :=
  match l with
  | [] => True
  | a :: rest => Forall (extends a) rest /\ increasing rest
  end.

(** Elements of the page, by the block that shows them. *)
Definition sidebar_title : UiEvent := (Sidebar, Title "ℹ️ Configuration").
Definition key_field : UiEvent := (Sidebar, TextInput "Enter your OpenAI API Key:").
Definition key_caption : UiEvent :=
  (Sidebar, Caption "Get your API key from [OpenAI Platform](https://platform.openai.com/account/api-keys) 🔑").
Definition key_saved : UiEvent := (Sidebar, Success "API Key saved!").
Definition key_configured : UiEvent := (Sidebar, Success "API Key is configured").
Definition reset_button : UiEvent := (Sidebar, Button "🔄 Reset API Key").
Definition sidebar_info : UiEvent :=
  (Sidebar, Info "This tool provides AI-powered analysis of medical imaging data using advanced computer vision and radiological expertise.").
Definition disclaimer : UiEvent :=
  (Sidebar, Warning "⚠DISCLAIMER: This tool is for educational and informational purposes only. All analyses should be reviewed by qualified healthcare professionals. Do not make medical decisions based solely on this analysis.").
Definition page_title : UiEvent := (Page, Title "🏥 Medical Imaging Diagnosis Agent").
Definition page_intro : UiEvent := (Page, Write "Upload a medical image for professional analysis").
Definition uploader : UiEvent :=
  (UploadContainer, FileUploader "Upload Medical Image" ["jpg"; "jpeg"; "png"]).
Definition upload_hint : UiEvent := (Page, Info "👆 Please upload a medical image to begin analysis").
Definition shown_image : UiEvent := (ImageContainer, ShowImage "Uploaded Medical Image").
Definition analyze_button : UiEvent := (ImageContainer, Button "🔍 Analyze Image").
Definition results_heading : UiEvent :=
  (AnalysisContainer, Markdown "### 📋 Analysis Results").
Definition analysis_error (e : PyException) : UiEvent :=
  (AnalysisContainer, Error ("Analysis error: " +:+ exc_str e)).

(** Whether the sidebar ends the execution with [st.rerun()], and the key
    slot it leaves. *)
Definition reruns (inp : Inputs) (key : option string) : bool :=
  if key_truthy key then in_reset inp else truthy (in_api_key inp).

Definition key_after (inp : Inputs) (key : option string) : option string :=
  if key_truthy key then (if in_reset inp then None else key)
  else if truthy (in_api_key inp) then Some (in_api_key inp) else key.

(** What the sidebar shows of the key, and what the page shows before the
    upload is looked at. *)
Definition sidebar_head (key : option string) : list UiEvent :=
  sidebar_title ::
  (if key_truthy key then [key_configured; reset_button] else [key_field; key_caption]).

Definition page_head (key : option string) : list UiEvent :=
  sidebar_head key ++ [sidebar_info; disclaimer]
  ++ (if key_truthy key then [] else [page_warning])
  ++ [page_title; page_intro; uploader].

(** The key slot holds no empty text. *)
Definition key_well_formed (key : option string) : Prop :=
  key = None \/ key_truthy key = true.



Definition unidentified_image : PyException :=
  {| exc_str := "cannot identify image file";
     exc_repr := "UnidentifiedImageError('cannot identify image file')" |}.

Definition open_fails (data : list byte) : PyException + list byte :=
  inl unidentified_image.

Definition unknown_call : ToolCall :=
  {| tc_name := "web_search"; tc_args := [("query", "pneumothorax")]; tc_id := "call_7" |}.

End Runs.

(** * Proofs *)

Import Py LangGraph Streamlit PIL App Conversation Runs.

(** ** ToolNode *)

Section ToolNodeFacts.

Variable tools : list Tool.
Variable handle_tool_errors : bool.

Lemma insert_by_finish_perm finish c l :
  Permutation (insert_by_finish finish c l) (c :: l).
Proof.
  induction l as [|d l IH]; simpl; [reflexivity|].
  destruct (finish c.1 <=? finish d.1)%nat; [reflexivity|].
  rewrite IH. apply perm_swap.
Qed.

Lemma completion_order_perm finish calls :
  Permutation (completion_order finish calls) (imap pair calls).
Proof.
  unfold completion_order. induction (imap pair calls) as [|c l IH]; simpl.
  - reflexivity.
  - rewrite insert_by_finish_perm. by constructor.
Qed.

Lemma fst_imap_pair (calls : list ToolCall) (k : nat) :
  (imap (fun i c => (k + i, c)) calls).*1 = seq k (length calls).
Proof.
  revert k. induction calls as [|c l IH]; intros k; simpl; [done|].
  f_equal; [lia|].
  rewrite <- (IH (S k)). f_equal. apply imap_ext. intros i x _. simpl. f_equal. lia.
Qed.

Lemma completion_order_nodup finish calls :
  NoDup (completion_order finish calls).*1.
Proof.
  rewrite (completion_order_perm finish calls).
  replace (imap pair calls) with (imap (fun i c => (0 + i, c)) calls) by done.
  rewrite fst_imap_pair. apply NoDup_seq.
Qed.

(** The future of call number [i] holds the result of that call, run at
    the rank at which it completed. *)
Lemma futures_lookup finish b calls i call :
  calls !! i = Some call →
  ∃ rank, futures tools handle_tool_errors finish b calls !! i
          = Some (run_one tools handle_tool_errors (b + rank) call).
Proof.
  intros Hi. unfold futures.
  assert (Hin : (i, call) ∈ completion_order finish calls).
  { rewrite (completion_order_perm finish calls).
    apply list_elem_of_lookup. exists i. by rewrite list_lookup_imap, Hi. }
  apply list_elem_of_lookup in Hin as [rank Hrank].
  exists rank. apply elem_of_list_to_map.
  - rewrite fmap_imap.
    rewrite (imap_ext _ (const fst)) by done.
    rewrite imap_const. apply completion_order_nodup.
  - apply list_elem_of_lookup. exists rank. by rewrite list_lookup_imap, Hrank.
Qed.

Lemma executor_map_from (P : ToolCall -> PyException + Message -> Prop)
    (fs : gmap nat (PyException + Message)) calls k :
  (∀ i call, calls !! i = Some call → ∃ r, fs !! (k + i) = Some r ∧ P call r) →
  Forall2 P calls (omap (fun i => fs !! i) (seq k (length calls))).
Proof.
  revert k. induction calls as [|c l IH]; intros k H; simpl; [constructor|].
  destruct (H 0 c eq_refl) as (r & Hr & HP).
  rewrite Nat.add_0_r in Hr. rewrite Hr. constructor; [done|].
  apply IH. intros i call Hi.
  destruct (H (S i) call Hi) as (r' & Hr' & HP').
  exists r'. split; [|done]. by replace (S k + i) with (k + S i) by lia.
Qed.

Lemma executor_map_results finish b calls :
  Forall2 (fun call r => ∃ rank, r = run_one tools handle_tool_errors (b + rank) call)
    calls
    (executor_map (futures tools handle_tool_errors finish b calls) (length calls)).
Proof.
  apply executor_map_from. intros i call Hi.
  destruct (futures_lookup finish b calls i call Hi) as [rank Hr].
  exists (run_one tools handle_tool_errors (b + rank) call). eauto.
Qed.

End ToolNodeFacts.

Lemma run_one_handled tools rank call :
  ∃ text, run_one tools true rank call
          = inr (ToolMessage text (tc_name call) (tc_id call)).
Proof.
  unfold run_one. destruct (tools_by_name tools (tc_name call)) as [t|]; [|eauto].
  destruct (tool_invoke t rank (tc_args call)); eauto.
Qed.

Lemma answers_shape tools call m :
  answers tools call m → ∃ text, m = ToolMessage text (tc_name call) (tc_id call).
Proof.
  intros [rank H]. destruct (run_one_handled tools rank call) as [text Ht].
  exists text. congruence.
Qed.

Lemma collect_all_returned (Q : ToolCall -> Message -> Prop) calls rs :
  Forall2 (fun call r => ∃ m, r = inr m ∧ Q call m) calls rs →
  ∃ ms, collect rs = inr ms ∧ Forall2 Q calls ms.
Proof.
  induction 1 as [|call r calls rs (m & -> & Hm) _ (ms & Hc & Hms)]; simpl.
  - exists []. split; [done|constructor].
  - rewrite Hc. exists (m :: ms). split; [done|by constructor].
Qed.

(** With tool errors handled, ToolNode returns one tool message per call
    of the last AI message, in the order of the calls, and never raises. *)
Lemma ToolNode_handled tools finish (state : list Message) c calls x :
  ∃ outs,
    ToolNode tools true finish (state ++ [AIMessage c calls]) x
    = (inr outs, mkExt (sent x) (tool_runs x + length calls) (visited x))
    ∧ Forall2 (answers tools) calls outs.
Proof.
  unfold ToolNode. rewrite last_snoc.
  destruct (collect_all_returned (answers tools) calls
              (executor_map (futures tools true (finish (tool_runs x)) (tool_runs x) calls)
                 (length calls))) as (outs & Hc & Ho).
  - eapply Forall2_impl; [apply executor_map_results|].
    intros call r [rank ->]. destruct (run_one_handled tools (tool_runs x + rank) call) as [text Ht].
    eexists. split; [exact Ht|]. exists (tool_runs x + rank). exact Ht.
  - exists outs. by rewrite Hc.
Qed.

(** ** The graph of the script, step by step *)

Section GraphFacts.

Variable ddg_search : nat -> list (string * string) -> ToolOutcome.
Variable finish : nat -> nat -> nat.
Variable llm : nat -> list Message -> LlmOutcome.
Variable limit : nat.
Let g := graph_builder ddg_search finish llm.

Lemma loop_chatbot steps state x :
  pregel_loop g limit (S steps) "chatbot" state x =
  let x' := mkExt (sent x ++ [state]) (tool_runs x) (visited x ++ ["chatbot"]) in
  match llm (llm_calls x) state with
  | LlmRaise e => (inl e, x')
  | LlmReply c calls =>
     match calls with
     | [] =>
         match steps with
         | 0 => (inl (GraphRecursionError limit), x')
         | S _ => (inr (state ++ [AIMessage c []]), x')
         end
     | _ => pregel_loop g limit steps "tools" (state ++ [AIMessage c calls]) x'
     end
  end.
Proof.
  cbn [pregel_loop].
  change (String.eqb "chatbot" END) with false. cbv iota.
  change (assoc "chatbot" (nodes g)) with (Some (chatbot llm)).
  unfold bind at 1. unfold visit at 1. unfold bind at 1.
  unfold chatbot at 1. unfold llm_calls. cbn [sent tool_runs visited].
  destruct (llm (length (sent x)) state) as [c calls|e]; [|reflexivity].
  unfold bind at 1, lift, successor.
  change (assoc "chatbot" (branches g)) with (Some tools_condition).
  cbv iota beta. unfold tools_condition, add_messages. rewrite last_snoc.
  destruct calls as [|call calls]; [|reflexivity].
  destruct steps; reflexivity.
Qed.

Lemma loop_tools steps (state : list Message) c calls x :
  ∃ outs,
    Forall2 (answers (tools ddg_search)) calls outs ∧
    pregel_loop g limit (S steps) "tools" (state ++ [AIMessage c calls]) x =
    pregel_loop g limit steps "chatbot" (state ++ [AIMessage c calls] ++ outs)
      (mkExt (sent x) (tool_runs x + length calls) (visited x ++ ["tools"])).
Proof.
  destruct (ToolNode_handled (tools ddg_search) finish state c calls
              (mkExt (sent x) (tool_runs x) (visited x ++ ["tools"])))
    as (outs & Hn & Ho).
  exists outs. split; [done|].
  cbn [pregel_loop].
  change (String.eqb "tools" END) with false. cbv iota.
  change (assoc "tools" (nodes g)) with (Some (tool_node ddg_search finish)).
  unfold bind at 1. unfold visit at 1. unfold bind at 1.
  unfold tool_node, default_handle_tool_errors. rewrite Hn.
  cbn [sent tool_runs visited].
  unfold bind at 1, lift, successor.
  change (assoc "tools" (branches g)) with (@None Router).
  change (assoc "tools" (edges g)) with (Some "chatbot").
  cbv iota beta. unfold add_messages. by rewrite <- app_assoc.
Qed.

Lemma loop_exhausted node state x :
  pregel_loop g limit 0 node state x = (inl (GraphRecursionError limit), x).
Proof. reflexivity. Qed.


(** One round of the cycle is two super-steps of the executor. *)
Lemma loop_cycle_round steps state x conv' x' :
  cycle_round ddg_search finish llm (state, x) = Some (conv', x') →
  pregel_loop g limit (S (S steps)) "chatbot" state x
  = pregel_loop g limit steps "chatbot" conv' x'
  ∧ requests_tool (llm (llm_calls x) state)
  ∧ sent x' = sent x ++ [state]
  ∧ visited x' = visited x ++ ["chatbot"; "tools"].
Proof.
  intros H. rewrite loop_chatbot. cbv zeta.
  unfold cycle_round in H. cbn [fst snd] in H.
  unfold bind at 1, visit at 1, chatbot at 1 in H.
  unfold llm_calls in *. cbn [sent tool_runs visited] in H.
  destruct (llm (length (sent x)) state) as [c [|call calls]|e]; [done| |done].
  set (x1 := mkExt (sent x ++ [state]) (tool_runs x) (visited x ++ ["chatbot"])) in *.
  destruct (ToolNode_handled (tools ddg_search) finish state c (call :: calls)
              (mkExt (sent x1) (tool_runs x1) (visited x1 ++ ["tools"])))
    as (outs & Hn & _).
  unfold bind at 1, visit at 1 in H. unfold add_messages in H.
  unfold tool_node, default_handle_tool_errors in H. rewrite Hn in H.
  injection H as <- <-.
  cbn [sent tool_runs visited]. split; [|split; [by eexists _, _, _|split]].
  - cbn [pregel_loop].
    change (String.eqb "tools" END) with false. cbv iota.
    change (assoc "tools" (nodes g)) with (Some (tool_node ddg_search finish)).
    unfold bind at 1. unfold visit at 1. unfold bind at 1.
    unfold tool_node, default_handle_tool_errors. rewrite Hn.
    cbn [sent tool_runs visited].
    unfold bind at 1, lift, successor.
    change (assoc "tools" (branches g)) with (@None Router).
    change (assoc "tools" (edges g)) with (Some "chatbot").
    cbv iota beta. reflexivity.
  - done.
  - unfold x1. cbn [visited]. by rewrite <- app_assoc.
Qed.

(** [k] rounds are [2 * k] super-steps; the model client has then been
    called [k] times, each time with a request for tools as its reply. *)
Lemma loop_after_rounds k :
  ∀ steps state x conv x',
    after_rounds ddg_search finish llm k (state, x) = Some (conv, x') →
    pregel_loop g limit (2 * k + steps) "chatbot" state x
    = pregel_loop g limit steps "chatbot" conv x'
    ∧ llm_calls x' = llm_calls x + k
    ∧ visited x' = visited x ++ rounds k.
Proof.
  induction k as [|k IH]; intros steps state x conv x' H.
  - injection H as <- <-. cbn [rounds]. rewrite app_nil_r. split; [done|]. split; [lia|done].
  - cbn [after_rounds] in H.
    destruct (cycle_round ddg_search finish llm (state, x)) as [[conv1 x1]|] eqn:Hround;
      [|done].
    destruct (loop_cycle_round (2 * k + steps) _ _ _ _ Hround) as (Hloop & _ & Hs & Hv).
    destruct (IH steps conv1 x1 conv x' H) as (Hrest & Hn & Hv').
    replace (2 * S k + steps) with (S (S (2 * k + steps))) by lia.
    rewrite Hloop, Hrest. split; [done|]. split.
    + rewrite Hn. unfold llm_calls. rewrite Hs, length_app. simpl. lia.
    + rewrite Hv', Hv. cbn [rounds]. by rewrite <- app_assoc.
Qed.

(** When the answer comes after [k] rounds, any number of steps up to
    [2 * k + 1] is used up before the executor can end the run. *)
Lemma loop_late_answer k :
  ∀ steps state x conv x' a,
    after_rounds ddg_search finish llm k (state, x) = Some (conv, x') →
    llm (llm_calls x') conv = LlmReply a [] →
    steps ≤ 2 * k + 1 →
    ∃ x'', pregel_loop g limit steps "chatbot" state x = (inl (GraphRecursionError limit), x'')
           ∧ length (visited x'') = length (visited x) + steps.
Proof.
  induction k as [|k IH]; intros steps state x conv x' a H Ha Hsteps.
  - injection H as <- <-. destruct steps as [|[|steps]]; [| |lia].
    + exists x. rewrite loop_exhausted. split; [done|lia].
    + eexists. rewrite loop_chatbot, Ha. cbv zeta iota. split; [reflexivity|].
      cbn [visited]. rewrite length_app. simpl. lia.
  - cbn [after_rounds] in H.
    destruct (cycle_round ddg_search finish llm (state, x)) as [[conv1 x1]|] eqn:Hround;
      [|done].
    destruct steps as [|[|steps]].
    + exists x. rewrite loop_exhausted. split; [done|lia].
    + destruct (loop_cycle_round 0 _ _ _ _ Hround) as (_ & (c & call & calls & Hc) & _ & _).
      eexists. rewrite loop_chatbot, Hc. cbv zeta iota. rewrite loop_exhausted.
      split; [reflexivity|]. cbn [visited]. rewrite length_app. simpl. lia.
    + destruct (loop_cycle_round steps _ _ _ _ Hround) as (Hloop & _ & _ & Hv).
      destruct (IH steps conv1 x1 conv x' a H Ha) as (x'' & Hrun & Hlen); [lia|].
      exists x''. rewrite Hloop, Hrun. split; [done|].
      rewrite Hlen, Hv, length_app. simpl. lia.
Qed.

End GraphFacts.

(** ** The extraction loop *)

Lemma append_nil_r (s : string) : s +:+ "" = s.
Proof.
  induction s as [|a s IH]; [reflexivity|].
  change (String a (s +:+ "") = String a s). by rewrite IH.
Qed.

Lemma append_assoc (s1 s2 s3 : string) : (s1 +:+ s2) +:+ s3 = s1 +:+ (s2 +:+ s3).
Proof.
  induction s1 as [|a s1 IH]; [reflexivity|].
  change (String a ((s1 +:+ s2) +:+ s3) = String a (s1 +:+ (s2 +:+ s3))).
  by rewrite IH.
Qed.

Lemma type_is_never_tool_call (m : Message) :
  String.eqb (msg_type m) "tool_call" = false.
Proof. by destruct m. Qed.

Lemma extract_from_texts str_parts acc conv :
  extract_from str_parts acc conv
  = inr (acc +:+ concat_texts (List.map ai_text conv)).
Proof.
  revert acc. induction conv as [|m conv IH]; intros acc.
  - simpl. by rewrite append_nil_r.
  - cbn [extract_from List.map concat_texts fold_right].
    fold (concat_texts (List.map ai_text conv)).
    destruct m as [ps|s calls|s n id]; unfold extract_step; cbn [msg_type content ai_text].
    + change (String.eqb "human" "ai") with false.
      change (String.eqb "human" "tool_call") with false. cbv iota.
      by rewrite IH.
    + change (String.eqb "ai" "ai") with true. cbv iota.
      destruct s as [|a s]; cbn [content_truthy truthy iadd].
      * by rewrite IH.
      * by rewrite IH, append_assoc.
    + change (String.eqb "tool" "ai") with false.
      change (String.eqb "tool" "tool_call") with false. cbv iota.
      by rewrite IH.
Qed.

Lemma extract_texts str_parts conv :
  extract str_parts conv = inr (concat_texts (List.map ai_text conv)).
Proof. unfold extract. by rewrite extract_from_texts. Qed.

(** ** The blocks of the script *)

Section ScriptFacts.

Variable Image : Type.
Variable Image_open : list byte -> PyException + Image.
Variable Image_encode : Image -> string -> PyException + list byte.
Variable ChatOpenAI : string -> nat -> list Message -> LlmOutcome.
Variable ddg_search : nat -> list (string * string) -> ToolOutcome.
Variable finish : nat -> nat -> nat.
Variable recursion_limit : nat.
Variable str_parts : list Part -> string.

Local Abbreviation analysis' := (analysis recursion_limit str_parts).
Local Abbreviation analysis_section' := (analysis_section recursion_limit str_parts).
Local Abbreviation image_section' := (image_section Image Image_open Image_encode).
Local Abbreviation build_agent' := (build_agent ChatOpenAI ddg_search finish).
Local Abbreviation script' :=
  (script Image Image_open Image_encode ChatOpenAI ddg_search finish recursion_limit str_parts).
Local Abbreviation execute' :=
  (execute Image Image_open Image_encode ChatOpenAI ddg_search finish recursion_limit str_parts).

Lemma cleanup_run w : cleanup w = (inr tt, remove_file image_path w).
Proof.
  unfold cleanup, sbind, os_path_exists, os_remove, sret, remove_file.
  destruct (files w !! image_path) as [data|] eqn:Hf.
  - rewrite bool_decide_eq_true_2 by eauto. by rewrite Hf.
  - rewrite bool_decide_eq_false_2 by (intros [? ?]; done).
    destruct w as [fs k u x]. simpl in *. by rewrite delete_id.
Qed.

Lemma removed_file_gone w : files (remove_file image_path w) !! image_path = None.
Proof. apply lookup_delete_eq. Qed.

(** Whatever the body and the handler do, the guarded block ends with the
    temporary file removed. *)
Lemma guarded_removes_file body handler w :
  files (try_except_finally body handler cleanup w).2 !! image_path = None.
Proof.
  unfold try_except_finally.
  destruct (body w) as [r w1].
  destruct (match r with inl (Raised e) => handler e w1 | _ => (r, w1) end) as [r' w2].
  rewrite cleanup_run. apply removed_file_gone.
Qed.

(** The body of the [try], case by case. *)
Lemma analysis_no_agent enc w :
  analysis' None enc w
  = (inr tt, add_ui [(AnalysisContainer,
       Warning "No agent is configured. Please ensure you have provided your OpenAI key.")] w).
Proof. reflexivity. Qed.

Lemma analysis_raised agent enc w e x :
  invoke agent recursion_limit (initial_state enc) (ext w) = (inl e, x) →
  analysis' (Some agent) enc w = (inl (Raised e), set_ext x w).
Proof. intros H. unfold analysis, sbind, of_run. by rewrite H. Qed.

Lemma analysis_returned agent enc w conv x :
  invoke agent recursion_limit (initial_state enc) (ext w) = (inr conv, x) →
  analysis' (Some agent) enc w
  = (inr tt,
     add_ui (if truthy (strip (combined conv))
             then [(AnalysisContainer, Markdown "### 📋 Analysis Results");
                   (AnalysisContainer, Markdown (combined conv))]
             else [(AnalysisContainer,
                    Error "AI response content is missing or improperly formatted.")])
       (set_ext x w)).
Proof.
  intros H. unfold analysis, sbind, of_run. rewrite H.
  rewrite extract_texts. unfold of_result. fold (combined conv).
  destruct (truthy (strip (combined conv))); unfold emit, add_ui, set_ext; simpl.
  - by rewrite <- app_assoc.
  - done.
Qed.


Local Abbreviation agent_for' := (agent_for ChatOpenAI ddg_search finish).

Lemma sidebar_run inp w :
  ∃ evs, Forall outside_analysis evs ∧
    ((sidebar inp w = (inr tt, add_ui evs w)
      ∧ (key_truthy (OPENAI_API_KEY w) = false → truthy (in_api_key inp) = false))
     ∨ (∃ k, sidebar inp w = (inl RerunRequested, add_ui evs (with_key k w)))).
Proof.
  destruct w as [fs key u x].
  unfold sidebar, sbind, get_key, emit, set_key, rerun, sret, add_ui, with_key.
  simpl. destruct (key_truthy key) eqn:Hk; simpl.
  - destruct (in_reset inp); simpl.
    + eexists. split; [|right; eexists; rewrite <- !app_assoc; simpl; reflexivity].
      repeat constructor; discriminate.
    + eexists. split; [|left; split; [rewrite <- !app_assoc; simpl; reflexivity|discriminate]].
      repeat constructor; discriminate.
  - destruct (truthy (in_api_key inp)) eqn:Ht; simpl.
    + eexists. split; [|right; eexists; rewrite <- !app_assoc; simpl; reflexivity].
      repeat constructor; discriminate.
    + eexists. split; [|left; split; [rewrite <- !app_assoc; simpl; reflexivity|done]].
      repeat constructor; discriminate.
Qed.

Lemma build_agent_run w :
  build_agent' w
  = (inr (agent_for' (OPENAI_API_KEY w)),
     add_ui (if key_truthy (OPENAI_API_KEY w) then [] else [page_warning]) w).
Proof.
  unfold build_agent, sbind, get_key, emit, sret, add_ui, agent_for, key_truthy.
  destruct w as [fs [k|] u x]; cbn [files OPENAI_API_KEY ui ext].
  - destruct (truthy k); [by rewrite app_nil_r|reflexivity].
  - reflexivity.
Qed.

Lemma image_path_format : format_of_extension (splitext_ext image_path) = Some "PNG".
Proof. reflexivity. Qed.

(** Lines 164-186 on a world: the exception of [Image.open], or the
    exception of the encoder with the file emptied or absent, or the PNG
    written, the image and the button shown. *)
Lemma image_section_eq f w :
  image_section' f w
  = match Image_open (upload_data f) with
    | inl e => (inl (Raised e), w)
    | inr img =>
        match Image_encode img "PNG" with
        | inl e => (inl (Raised e), save_failed image_path w)
        | inr png =>
            (inr (b64encode png),
             add_ui [(ImageContainer, ShowImage "Uploaded Medical Image");
                     (ImageContainer, Button "🔍 Analyze Image")]
               (put_file image_path png w))
        end
    end.
Proof.
  unfold image_section. unfold sbind at 1, of_result at 1.
  destruct (Image_open (upload_data f)) as [e|img]; [done|].
  unfold sbind at 1, Image_save. rewrite image_path_format.
  unfold sbind at 1, os_path_exists. unfold sbind at 1, write_file at 1.
  cbn [files OPENAI_API_KEY ui ext].
  destruct (Image_encode img "PNG") as [e|png].
  - unfold save_failed, put_file. destruct (files w !! image_path) as [old|] eqn:Hold.
    + rewrite bool_decide_eq_true_2 by eauto. cbn [negb]. reflexivity.
    + rewrite bool_decide_eq_false_2 by (intros [? ?]; done). cbn [negb].
      unfold sbind, os_remove, sraise. cbn [files OPENAI_API_KEY ui ext].
      rewrite lookup_insert_eq. cbn [files OPENAI_API_KEY ui ext].
      rewrite delete_insert_eq, delete_id by done. by destruct w.
  - unfold write_file, sbind, read_file, emit, sret, add_ui, put_file.
    cbn [files OPENAI_API_KEY ui ext]. rewrite insert_insert_eq, lookup_insert_eq.
    cbn [files OPENAI_API_KEY ui ext]. by rewrite <- app_assoc.
Qed.

Lemma save_failed_rest path w :
  OPENAI_API_KEY (save_failed path w) = OPENAI_API_KEY w
  ∧ ui (save_failed path w) = ui w
  ∧ ext (save_failed path w) = ext w.
Proof. unfold save_failed. by destruct (files w !! path). Qed.

Lemma image_section_run f w :
  (∃ e w', image_section' f w = (inl (Raised e), w')
           ∧ ui w' = ui w ∧ ext w' = ext w)
  ∨ (∃ img png,
       Image_open (upload_data f) = inr img
       ∧ Image_encode img "PNG" = inr png
       ∧ image_section' f w
         = (inr (b64encode png),
            add_ui [(ImageContainer, ShowImage "Uploaded Medical Image");
                    (ImageContainer, Button "🔍 Analyze Image")]
              (put_file image_path png w))).
Proof.
  rewrite image_section_eq.
  destruct (Image_open (upload_data f)) as [e|img] eqn:Hopen; [left; eauto|].
  destruct (Image_encode img "PNG") as [e|png] eqn:Henc.
  - left. exists e, (save_failed image_path w). split; [done|].
    by destruct (save_failed_rest image_path w) as (_ & ? & ?).
  - right. by exists img, png.
Qed.

(** One execution of the script: it stops before the analysis block, or
    it ends without an upload, or it is the analysis block run on the
    world the earlier blocks left. *)
Lemma script_run inp w res :
  script' inp w = res →
  (∃ s w' evs,
      res = (inl s, w') ∧ ext w' = ext w ∧ ui w' = ui w ++ evs
      ∧ Forall outside_analysis evs)
  ∨ (∃ evs,
      res = (inr tt, add_ui evs w) ∧ Forall outside_analysis evs
      ∧ in_upload inp = None
      ∧ (key_truthy (OPENAI_API_KEY w) = false → page_warning ∈ evs))
  ∨ (∃ f img png evs,
      in_upload inp = Some f
      ∧ Image_open (upload_data f) = inr img
      ∧ Image_encode img "PNG" = inr png
      ∧ Forall outside_analysis evs
      ∧ (key_truthy (OPENAI_API_KEY w) = false →
         truthy (in_api_key inp) = false ∧ page_warning ∈ evs)
      ∧ res
        = analysis_section' (agent_for' (OPENAI_API_KEY w)) (b64encode png)
            (in_analyze inp) (add_ui evs (put_file image_path png w))).
Proof.
  intros H. unfold script in H. unfold sbind at 1 in H.
  destruct (sidebar_run inp w) as (evs & Hevs & [[Hs Hkey]|[k Hs]]); rewrite Hs in H.
  2: { subst res. left. exists RerunRequested. eexists. exists evs. by repeat split. }
  unfold sbind at 1 in H. rewrite build_agent_run in H.
  cbn [OPENAI_API_KEY add_ui] in H.
  set (evs1 := if key_truthy (OPENAI_API_KEY w) then [] else [page_warning]) in H.
  assert (Hevs1 : Forall outside_analysis evs1).
  { unfold evs1. destruct key_truthy; repeat constructor. discriminate. }
  assert (Hwarn : key_truthy (OPENAI_API_KEY w) = false → page_warning ∈ evs1).
  { unfold evs1. intros ->. set_solver. }
  unfold sbind at 1, emit at 1 in H. unfold sbind at 1, emit at 1 in H.
  unfold sbind at 1, emit at 1 in H. cbn [files OPENAI_API_KEY ui ext add_ui] in H.
  set (w1 := mkWorld _ _ _ _) in H.
  assert (Hw1 : ∃ evs2, w1 = add_ui evs2 w ∧ Forall outside_analysis evs2
                        ∧ (key_truthy (OPENAI_API_KEY w) = false → page_warning ∈ evs2)).
  { eexists. split; [unfold w1, add_ui; rewrite <- !app_assoc; reflexivity|].
    split.
    - apply Forall_app. split; [done|]. apply Forall_app. split; [done|].
      repeat constructor; discriminate.
    - intros Hk. specialize (Hwarn Hk). set_solver. }
  clearbody w1. destruct Hw1 as (evs2 & -> & Hevs2 & Hwarn2).
  destruct (in_upload inp) as [f|] eqn:Hup.
  - unfold sbind at 1 in H.
    destruct (image_section_run f (add_ui evs2 w))
      as [(e & w' & He & Hui & Hext)|(img & png & Hopen & Henc & He)];
      rewrite He in H.
    + subst res. left. exists (Raised e), w', evs2. by repeat split.
    + right. right. exists f, img, png.
      exists (evs2 ++ [(ImageContainer, ShowImage "Uploaded Medical Image");
                       (ImageContainer, Button "🔍 Analyze Image")]).
      split; [done|]. split; [done|]. split; [done|].
      split; [|split]; [| |].
      3: { rewrite <- H. unfold add_ui, put_file. cbn [files OPENAI_API_KEY ui ext].
           by rewrite <- app_assoc. }
      * apply Forall_app. split; [done|]. repeat constructor; discriminate.
      * intros Hk. split; [by apply Hkey|]. specialize (Hwarn2 Hk). set_solver.
  - right. left. eexists. split.
    + rewrite <- H. unfold emit, add_ui. cbn [files OPENAI_API_KEY ui ext].
      rewrite <- app_assoc. reflexivity.
    + split; [|split; [done|]].
      * apply Forall_app. split; [done|]. repeat constructor; discriminate.
      * intros Hk. specialize (Hwarn2 Hk). set_solver.
Qed.

Lemma not_in_outside evs e :
  Forall outside_analysis evs → (AnalysisContainer, e) ∉ evs.
Proof.
  intros H Hin. rewrite Forall_forall in H. by apply (H _ Hin).
Qed.

Lemma guarded_returned body handler w w1 :
  body w = (inr tt, w1) →
  try_except_finally body handler cleanup w = (inr tt, remove_file image_path w1).
Proof. intros H. unfold try_except_finally. by rewrite H, cleanup_run. Qed.

Lemma guarded_reported body w w1 e :
  body w = (inl (Raised e), w1) →
  try_except_finally body report cleanup w
  = (inr tt,
     remove_file image_path
       (add_ui [(AnalysisContainer, Error ("Analysis error: " +:+ exc_str e))] w1)).
Proof.
  intros H. unfold try_except_finally. rewrite H.
  unfold report at 1, emit. by rewrite cleanup_run.
Qed.

Lemma analysis_section_skipped agent enc w :
  analysis_section' agent enc false w = (inr tt, w).
Proof. reflexivity. Qed.

Lemma analysis_section_no_agent enc w :
  analysis_section' None enc true w
  = (inr tt, remove_file image_path (add_ui [spinner; no_agent_warning] w)).
Proof.
  unfold analysis_section, sbind, emit.
  erewrite guarded_returned by apply analysis_no_agent.
  unfold add_ui, remove_file. cbn [files OPENAI_API_KEY ui ext].
  by rewrite <- app_assoc.
Qed.

Lemma analysis_section_raised agent enc w e x :
  invoke agent recursion_limit (initial_state enc) (ext w) = (inl e, x) →
  analysis_section' (Some agent) enc true w
  = (inr tt,
     remove_file image_path
       (add_ui [spinner; (AnalysisContainer, Error ("Analysis error: " +:+ exc_str e))]
          (set_ext x w))).
Proof.
  intros H. unfold analysis_section, sbind, emit.
  erewrite guarded_reported by (apply analysis_raised; exact H).
  unfold add_ui, remove_file, set_ext. cbn [files OPENAI_API_KEY ui ext].
  by rewrite <- app_assoc.
Qed.

Lemma analysis_section_returned agent enc w conv x :
  invoke agent recursion_limit (initial_state enc) (ext w) = (inr conv, x) →
  analysis_section' (Some agent) enc true w
  = (inr tt,
     remove_file image_path
       (add_ui (spinner ::
                if truthy (strip (combined conv))
                then [(AnalysisContainer, Markdown "### 📋 Analysis Results");
                      (AnalysisContainer, Markdown (combined conv))]
                else [missing_response])
          (set_ext x w))).
Proof.
  intros H. unfold analysis_section, sbind, emit.
  erewrite guarded_returned by (apply analysis_returned; exact H).
  unfold add_ui, remove_file, set_ext. cbn [files OPENAI_API_KEY ui ext].
  by rewrite <- app_assoc.
Qed.
(** The script as one case distinction: all of it up to the analysis
    block. *)
Lemma sidebar_eq inp w :
  sidebar inp w
  = if reruns inp (OPENAI_API_KEY w)
    then (inl RerunRequested,
          add_ui (sidebar_head (OPENAI_API_KEY w)
                  ++ (if key_truthy (OPENAI_API_KEY w) then [] else [key_saved]))
            (with_key (key_after inp (OPENAI_API_KEY w)) w))
    else (inr tt, add_ui (sidebar_head (OPENAI_API_KEY w) ++ [sidebar_info; disclaimer]) w).
Proof.
  destruct w as [fs key u x].
  unfold sidebar, sbind, get_key, emit, set_key, rerun, sret, add_ui, with_key,
    reruns, key_after, sidebar_head.
  simpl. destruct (key_truthy key); simpl.
  - destruct (in_reset inp); simpl; by rewrite <- !app_assoc.
  - destruct (truthy (in_api_key inp)); simpl; by rewrite <- !app_assoc.
Qed.

Lemma script_rerun inp w :
  reruns inp (OPENAI_API_KEY w) = true →
  script' inp w
  = (inl RerunRequested,
     add_ui (sidebar_head (OPENAI_API_KEY w)
             ++ (if key_truthy (OPENAI_API_KEY w) then [] else [key_saved]))
       (with_key (key_after inp (OPENAI_API_KEY w)) w)).
Proof.
  intros H. unfold script. unfold sbind at 1. by rewrite sidebar_eq, H.
Qed.

Lemma script_no_rerun inp w :
  reruns inp (OPENAI_API_KEY w) = false →
  script' inp w
  = match in_upload inp with
    | None => (inr tt, add_ui (page_head (OPENAI_API_KEY w) ++ [upload_hint]) w)
    | Some f =>
        match Image_open (upload_data f) with
        | inl e => (inl (Raised e), add_ui (page_head (OPENAI_API_KEY w)) w)
        | inr img =>
            match Image_encode img "PNG" with
            | inl e =>
                (inl (Raised e),
                 save_failed image_path (add_ui (page_head (OPENAI_API_KEY w)) w))
            | inr png =>
                analysis_section' (agent_for' (OPENAI_API_KEY w)) (b64encode png)
                  (in_analyze inp)
                  (add_ui (page_head (OPENAI_API_KEY w) ++ [shown_image; analyze_button])
                     (put_file image_path png w))
            end
        end
    end.
Proof.
  intros H. unfold script. unfold sbind at 1. rewrite sidebar_eq, H.
  unfold sbind at 1. rewrite build_agent_run. cbn [OPENAI_API_KEY add_ui].
  unfold sbind at 1, emit at 1. unfold sbind at 1, emit at 1.
  unfold sbind at 1, emit at 1. cbn [files OPENAI_API_KEY ui ext add_ui].
  set (w1 := mkWorld _ _ _ _).
  assert (w1 = add_ui (page_head (OPENAI_API_KEY w)) w) as ->.
  { unfold w1, add_ui, page_head. by rewrite <- !app_assoc. }
  destruct (in_upload inp) as [f|].
  - unfold sbind at 1. rewrite image_section_eq.
    destruct (Image_open (upload_data f)) as [e|img]; [done|].
    destruct (Image_encode img "PNG") as [e|png]; [done|].
    unfold add_ui, put_file. cbn [files OPENAI_API_KEY ui ext].
    by rewrite <- !app_assoc.
  - unfold emit, add_ui. cbn [files OPENAI_API_KEY ui ext]. by rewrite <- !app_assoc.
Qed.

End ScriptFacts.

(** ** Correlation of requests and results *)

Lemma requests_in_cons m l : requests_in (m :: l) = request_ids m ++ requests_in l.
Proof. reflexivity. Qed.

Lemma results_match_app b seen l1 l2 :
  results_match b seen (l1 ++ l2)
  = results_match b seen l1 && results_match b (seen ++ requests_in l1) l2.
Proof.
  revert seen. induction l1 as [|m l1 IH]; intros seen.
  - simpl. unfold requests_in. simpl. by rewrite app_nil_r.
  - rewrite requests_in_cons.
    destruct m as [ps|s calls|s n id]; cbn [app results_match request_ids].
    + rewrite IH. by rewrite app_nil_r.
    + rewrite IH. by rewrite <- app_assoc.
    + rewrite IH. simpl. by rewrite andb_assoc.
Qed.


Lemma results_match_results seen outs :
  (∀ m, m ∈ outs → ∃ id, result_id m = Some id ∧ In id seen) →
  results_match false seen outs = true.
Proof.
  induction outs as [|m outs IH]; intros H; [done|].
  destruct (H m) as (id & Hid & Hin); [set_solver|].
  destruct m; try discriminate. simpl in Hid. injection Hid as ->.
  cbn [results_match]. rewrite IH by (intros; apply H; set_solver).
  rewrite andb_true_r. apply Nat.leb_le.
  apply (count_occ_In string_dec) in Hin. lia.
Qed.

Lemma requests_answered_app l1 l2 :
  requests_answered l1 = true → requests_answered l2 = true →
  requests_answered (l1 ++ l2) = true.
Proof.
  intros H1 H2. induction l1 as [|m l1 IH]; [done|].
  cbn [app requests_answered] in *. apply andb_true_iff in H1 as [Hm Hl].
  apply andb_true_iff. split; [|by apply IH].
  rewrite forallb_forall in *. intros id Hid.
  rewrite existsb_app, (Hm id Hid). done.
Qed.

Lemma requests_answered_results outs :
  (∀ m, m ∈ outs → request_ids m = []) → requests_answered outs = true.
Proof.
  induction outs as [|m outs IH]; intros H; [done|].
  cbn [requests_answered]. rewrite (H m) by set_solver. simpl.
  apply IH. intros; apply H; set_solver.
Qed.

Lemma answers_no_requests tools calls outs :
  Forall2 (answers tools) calls outs → ∀ m, m ∈ outs → request_ids m = [].
Proof.
  intros H m Hm. apply list_elem_of_lookup in Hm as [i Hi].
  destruct (Forall2_lookup_r _ _ _ _ _ H Hi) as (call & _ & Ha).
  by destruct (answers_shape _ _ _ Ha) as [text ->].
Qed.

Lemma answers_found tools calls outs call :
  Forall2 (answers tools) calls outs → call ∈ calls →
  existsb (is_result_for (tc_id call)) outs = true.
Proof.
  intros H Hc. apply list_elem_of_lookup in Hc as [i Hi].
  destruct (Forall2_lookup_l _ _ _ _ _ H Hi) as (m & Hm & Ha).
  destruct (answers_shape _ _ _ Ha) as [text ->].
  apply existsb_exists. eexists. split.
  - apply list_elem_of_In, list_elem_of_lookup. eauto.
  - simpl. apply String.eqb_refl.
Qed.

(** A round, appended to a conversation that satisfies the two
    properties, gives one that satisfies them. *)
Lemma round_keeps_properties tools (s : list Message) c calls outs :
  Forall2 (answers tools) calls outs →
  results_match false [] s = true → requests_answered s = true →
  results_match false [] (s ++ [AIMessage c calls] ++ outs) = true
  ∧ requests_answered (s ++ [AIMessage c calls] ++ outs) = true.
Proof.
  intros Ho Hs1 Hs2. split.
  - rewrite results_match_app, Hs1. cbn [andb app results_match request_ids].
    apply results_match_results. intros m Hm.
    apply list_elem_of_lookup in Hm as [i Hi].
    destruct (Forall2_lookup_r _ _ _ _ _ Ho Hi) as (call & Hcall & Ha).
    destruct (answers_shape _ _ _ Ha) as [text ->].
    exists (tc_id call). split; [done|].
    apply in_or_app. right. apply in_map. apply list_elem_of_In, list_elem_of_lookup. eauto.
  - apply requests_answered_app; [done|].
    cbn [app requests_answered request_ids]. apply andb_true_iff. split.
    + apply forallb_forall. intros id Hid. apply in_map_iff in Hid as (call & <- & Hcall).
      eapply answers_found; [done|]. by apply list_elem_of_In.
    + apply requests_answered_results. by eapply answers_no_requests.
Qed.

Lemma answer_keeps_properties (s : list Message) a :
  results_match false [] s = true → requests_answered s = true →
  results_match false [] (s ++ [AIMessage a []]) = true
  ∧ requests_answered (s ++ [AIMessage a []]) = true.
Proof.
  intros Hs1 Hs2. split.
  - by rewrite results_match_app, Hs1.
  - by apply requests_answered_app.
Qed.

(** When no id is requested twice, "at least one" is "exactly one". *)
Lemma results_match_once conv :
  ∀ seen, results_match false seen conv = true →
          NoDup (seen ++ requests_in conv) →
          results_match true seen conv = true.
Proof.
  induction conv as [|m conv IH]; intros seen H Hnd; [done|].
  rewrite requests_in_cons in Hnd.
  destruct m as [ps|s calls|s n id]; cbn [results_match request_ids] in *.
  - apply IH; [done|]. by rewrite app_nil_r.
  - apply IH; [done|]. by rewrite <- app_assoc.
  - apply andb_true_iff in H as [Hc Hr]. apply Nat.leb_le in Hc.
    rewrite IH by done. rewrite andb_true_r. apply Nat.eqb_eq.
    apply NoDup_app in Hnd as (Hseen & _ & _).
    apply NoDup_ListNoDup in Hseen.
    pose proof (proj1 (NoDup_count_occ string_dec seen) Hseen id). lia.
Qed.

(** ** What every run of the graph keeps *)

Section GraphInvariants.

Variable ddg_search : nat -> list (string * string) -> ToolOutcome.
Variable finish : nat -> nat -> nat.
Variable llm : nat -> list Message -> LlmOutcome.
Variable limit : nat.

Local Abbreviation g := (graph_builder ddg_search finish llm).

Lemma loop_keeps_properties steps :
  (∀ s x conv x',
     results_match false [] s = true → requests_answered s = true →
     pregel_loop g limit steps "chatbot" s x = (inr conv, x') →
     results_match false [] conv = true ∧ requests_answered conv = true)
  ∧ (∀ (s : list Message) c calls x conv x',
     results_match false [] s = true → requests_answered s = true →
     pregel_loop g limit steps "tools" (s ++ [AIMessage c calls]) x = (inr conv, x') →
     results_match false [] conv = true ∧ requests_answered conv = true).
Proof.
  induction steps as [|steps [IHc IHt]].
  - split; intros *; intros _ _ H.
    + by rewrite loop_exhausted in H.
    + by rewrite loop_exhausted in H.
  - split.
    + intros s x conv x' H1 H2 H. rewrite loop_chatbot in H. cbv zeta in H.
      destruct (llm (llm_calls x) s) as [c [|call calls]|e]; [| |done].
      * destruct steps; [done|]. injection H as <- _. by apply answer_keeps_properties.
      * by eapply IHt.
    + intros s c calls x conv x' H1 H2 H.
      destruct (loop_tools ddg_search finish llm limit steps s c calls x)
        as (outs & Ho & Hstep).
      rewrite Hstep in H. eapply IHc; [| |exact H].
      * by eapply round_keeps_properties.
      * by eapply round_keeps_properties.
Qed.

Lemma loop_sent_prefix (init : list Message) steps :
  (∀ s x r x',
     init `prefix_of` s → Forall (prefix init) (sent x) →
     pregel_loop g limit steps "chatbot" s x = (r, x') →
     Forall (prefix init) (sent x'))
  ∧ (∀ (s : list Message) c calls x r x',
     init `prefix_of` s → Forall (prefix init) (sent x) →
     pregel_loop g limit steps "tools" (s ++ [AIMessage c calls]) x = (r, x') →
     Forall (prefix init) (sent x')).
Proof.
  induction steps as [|steps [IHc IHt]].
  - split; intros *; intros _ Hx H.
    + rewrite loop_exhausted in H. by injection H as _ <-.
    + rewrite loop_exhausted in H. by injection H as _ <-.
  - split.
    + intros s x r x' Hs Hx H. rewrite loop_chatbot in H. cbv zeta in H.
      assert (Hx1 : Forall (prefix init) (sent x ++ [s])).
      { apply Forall_app. split; [done|]. by constructor. }
      destruct (llm (llm_calls x) s) as [c [|call calls]|e].
      * destruct steps; by injection H as _ <-.
      * eapply IHt; [exact Hs| |exact H]. done.
      * by injection H as _ <-.
    + intros s c calls x r x' Hs Hx H.
      destruct (loop_tools ddg_search finish llm limit steps s c calls x)
        as (outs & Ho & Hstep).
      rewrite Hstep in H. eapply IHc; [| |exact H]; [|done].
      by apply prefix_app_r.
Qed.

End GraphInvariants.

(** ** base64: decoding undoes encoding *)

Lemma forall_below (P : N -> bool) (n : nat) :
  forallb P (below n) = true -> forall x, (x < N.of_nat n)%N -> P x = true.
Proof.
  intros H x Hx. rewrite forallb_forall in H. apply H.
  unfold below. apply in_map_iff. exists (N.to_nat x). split; [apply N2Nat.id|].
  apply in_seq. lia.
Qed.

Lemma forall_below2 (P : N -> N -> bool) (n m : nat) :
  forallb (fun x => forallb (P x) (below m)) (below n) = true ->
  forall x y, (x < N.of_nat n)%N -> (y < N.of_nat m)%N -> P x y = true.
Proof.
  intros H x y Hx Hy.
  apply (forall_below (P x) m); [|exact Hy].
  apply (forall_below (fun x => forallb (P x) (below m)) n H x Hx).
Qed.

Lemma sextets_ok : forall i, (i < 64)%N -> sextet_ok i = true.
Proof. apply (forall_below sextet_ok 64). vm_compute. reflexivity. Qed.

Lemma pairs_ok : forall a b, (a < 256)%N -> (b < 256)%N -> pair_ok a b = true.
Proof. apply (forall_below2 pair_ok 256 256). vm_compute. reflexivity. Qed.

Lemma byteN_below (a : byte) : (byteN a < 256)%N.
Proof. pose proof (Byte.to_N_bounded a). unfold byteN. lia. Qed.

Lemma index_of_char i :
  (i < 64)%N -> b64_index (b64_char i) = Some i /\ is_pad (b64_char i) = false.
Proof.
  intros H. pose proof (sextets_ok i H) as Hok. unfold sextet_ok in Hok.
  destruct (b64_index (b64_char i)) as [j|]; [|discriminate].
  apply andb_true_iff in Hok as [Hj Hp]. apply N.eqb_eq in Hj. subst j.
  split; [reflexivity|]. by apply negb_true_iff.
Qed.

Lemma list_ind3 {A} (P : list A -> Prop) :
  P [] -> (forall a, P [a]) -> (forall a b, P [a; b]) ->
  (forall a b c l, P l -> P (a :: b :: c :: l)) ->
  forall l, P l.
Proof.
  intros H0 H1 H2 H3.
  assert (H : forall l, P l /\ (forall a, P (a :: l)) /\ (forall a b, P (a :: b :: l))).
  { induction l as [|c l (IH0 & IH1 & IH2)]; [by repeat split|].
    split; [apply IH1|]. split; [intros a; apply IH2|]. intros a b. by apply H3. }
  intros l. apply H.
Qed.

Ltac unpack_pair H :=
  unfold pair_ok in H;
  repeat (apply andb_true_iff in H as [H ?]);
  repeat match goal with
         | E : N.eqb _ _ = true |- _ => apply N.eqb_eq in E
         | E : N.ltb _ _ = true |- _ => apply N.ltb_lt in E
         end.

Lemma b64decode_b64encode (data : list byte) :
  b64decode (b64encode data) = Some data.
Proof.
  induction data as [|a|a b|a b c rest IH] using list_ind3.
  - reflexivity.
  - pose proof (pairs_ok (byteN a) 0 (byteN_below a) eq_refl) as H. unpack_pair H.
    cbn [b64encode b64decode].
    destruct (index_of_char (sextet1 (byteN a))) as [-> _]; [done|].
    destruct (index_of_char (sextet2 (byteN a) 0)) as [-> _]; [done|].
    change (is_pad "=") with true. cbn [andb String.eqb].
    match goal with E : octet1 _ _ = _ |- _ => rewrite E end.
    unfold byteN. by rewrite Byte.of_to_N.
  - pose proof (pairs_ok (byteN a) (byteN b) (byteN_below a) (byteN_below b)) as H.
    pose proof (pairs_ok (byteN b) 0 (byteN_below b) eq_refl) as H'.
    unpack_pair H. unpack_pair H'.
    cbn [b64encode b64decode].
    destruct (index_of_char (sextet1 (byteN a))) as [-> _]; [done|].
    destruct (index_of_char (sextet2 (byteN a) (byteN b))) as [-> _]; [done|].
    destruct (index_of_char (sextet3 (byteN b) 0)) as [-> ->]; [done|].
    change (is_pad "=") with true. cbn [String.eqb].
    match goal with E : octet1 _ _ = _ |- _ => rewrite E end.
    unfold octet2.
    repeat match goal with E : N.land (sextet2 _ _) 15 = _ |- _ => rewrite E; clear E end.
    repeat match goal with E : N.shiftr (sextet3 _ _) 2 = _ |- _ => rewrite E; clear E end.
    repeat match goal with E : N.lor (N.shiftl (N.shiftr _ 4) 4) _ = _ |- _ => rewrite E; clear E end.
    unfold byteN. by rewrite !Byte.of_to_N.
  - pose proof (pairs_ok (byteN a) (byteN b) (byteN_below a) (byteN_below b)) as H.
    pose proof (pairs_ok (byteN b) (byteN c) (byteN_below b) (byteN_below c)) as H'.
    pose proof (pairs_ok (byteN c) 0 (byteN_below c) eq_refl) as H''.
    unpack_pair H. unpack_pair H'. unpack_pair H''.
    cbn [b64encode b64decode]. rewrite IH.
    destruct (index_of_char (sextet1 (byteN a))) as [-> _]; [done|].
    destruct (index_of_char (sextet2 (byteN a) (byteN b))) as [-> _]; [done|].
    destruct (index_of_char (sextet3 (byteN b) (byteN c))) as [-> ->]; [done|].
    destruct (index_of_char (sextet4 (byteN c))) as [-> ->]; [done|].
    match goal with E : octet1 (sextet1 (byteN a)) _ = _ |- _ => rewrite E end.
    unfold octet2, octet3.
    repeat match goal with E : N.land (sextet2 _ _) 15 = _ |- _ => rewrite E; clear E end.
    repeat match goal with E : N.shiftr (sextet3 _ _) 2 = _ |- _ => rewrite E; clear E end.
    repeat match goal with E : N.land (sextet3 _ _) 3 = _ |- _ => rewrite E; clear E end.
    repeat match goal with E : N.lor (N.shiftl (N.shiftr _ 4) 4) _ = _ |- _ => rewrite E; clear E end.
    repeat match goal with E : N.lor (N.shiftl (N.shiftr _ 6) 6) _ = _ |- _ => rewrite E; clear E end.
    unfold byteN. by rewrite !Byte.of_to_N.
Qed.

(** * The claims *)

Section ScriptClaims.

Variable Image : Type.
Variable Image_open : list byte -> PyException + Image.
Variable Image_encode : Image -> string -> PyException + list byte.
Variable ChatOpenAI : string -> nat -> list Message -> LlmOutcome.
Variable ddg_search : nat -> list (string * string) -> ToolOutcome.
Variable finish : nat -> nat -> nat.
Variable recursion_limit : nat.
Variable str_parts : list Part -> string.

Local Abbreviation analysis' := (analysis recursion_limit str_parts).
Local Abbreviation analysis_section' := (analysis_section recursion_limit str_parts).
Local Abbreviation image_section' := (image_section Image Image_open Image_encode).
Local Abbreviation agent_for' := (agent_for ChatOpenAI ddg_search finish).
Local Abbreviation execute' :=
  (execute Image Image_open Image_encode ChatOpenAI ddg_search finish recursion_limit str_parts).

(** C1.  Every execution of the script in which an analysis run starts
    (the spinner of the analysis block is shown) ends, whatever the run
    does (no agent, an answer, an exception of the model client or of the
    graph), with no file at "temp_medical_image.png". *)
Theorem temp_file_removed_after_run inp fs key r w' :
  execute' inp fs key = (r, w') →
  spinner ∈ ui w' →
  files w' !! image_path = None.
Proof.
  intros H Hsp. unfold execute in H.
  apply script_run in H
    as [(s & w1 & evs & H & _ & Hui & Hout)
       |[(evs & H & Hout & _)
        |(f & img & png & evs & _ & _ & _ & Hout & _ & H)]].
  - injection H as -> ->. rewrite Hui in Hsp. simpl in Hsp.
    by apply not_in_outside in Hsp.
  - injection H as -> ->. simpl in Hsp. by apply not_in_outside in Hsp.
  - destruct (in_analyze inp).
    + unfold analysis_section, sbind, emit in H. cbv iota beta in H.
      match type of H with
      | _ = try_except_finally ?b ?h cleanup ?w =>
          pose proof (guarded_removes_file b h w) as Hg; rewrite <- H in Hg
      end.
      exact Hg.
    + rewrite analysis_section_skipped in H. injection H as -> ->.
      simpl in Hsp. by apply not_in_outside in Hsp.
Qed.

Lemma agent_for_no_key key : key_truthy key = false → agent_for' key = None.
Proof. destruct key as [k|]; simpl; [|done]. by intros ->. Qed.

Lemma quiet_page evs :
  Forall outside_analysis evs →
  (∀ text, (AnalysisContainer, Markdown text) ∉ evs)
  ∧ (spinner ∈ evs → no_agent_warning ∈ evs ∧ page_warning ∈ evs).
Proof.
  intros H. split.
  - intros text. by apply not_in_outside.
  - intros Hsp. by apply not_in_outside in Hsp.
Qed.

(** C3.  An execution that starts with no key in the session never calls
    the model client and runs no node of the graph; it shows no analysis
    result, and when the analysis run starts it shows the warning that no
    agent is configured, next to the warning to configure a key. *)
Theorem no_credential_no_model_call inp fs key r w' :
  key_truthy key = false →
  execute' inp fs key = (r, w') →
  sent (ext w') = [] ∧ visited (ext w') = []
  ∧ (∀ text, (AnalysisContainer, Markdown text) ∉ ui w')
  ∧ (spinner ∈ ui w' → no_agent_warning ∈ ui w' ∧ page_warning ∈ ui w').
Proof.
  intros Hkey H. unfold execute in H.
  apply script_run in H
    as [(s & w1 & evs & H & Hext & Hui & Hout)
       |[(evs & H & Hout & _)
        |(f & img & png & evs & _ & _ & _ & Hout & Hwarn & H)]].
  - injection H as -> ->. rewrite Hext, Hui. simpl.
    split; [done|]. split; [done|]. by apply quiet_page.
  - injection H as -> ->. simpl.
    split; [done|]. split; [done|]. by apply quiet_page.
  - cbn [OPENAI_API_KEY] in *. destruct (Hwarn Hkey) as [_ Hpw].
    rewrite (agent_for_no_key key Hkey) in H.
    destruct (in_analyze inp).
    + rewrite analysis_section_no_agent in H. injection H as -> ->. simpl.
      split; [done|]. split; [done|]. split.
      * intros text Hin. apply elem_of_app in Hin as [Hin|Hin].
        -- by apply not_in_outside in Hin.
        -- apply elem_of_cons in Hin as [Hin|Hin]; [discriminate|].
           apply elem_of_cons in Hin as [Hin|Hin]; [discriminate|].
           by apply elem_of_nil in Hin.
      * intros _. split; apply elem_of_app; [right|by left].
        constructor. constructor.
    + rewrite analysis_section_skipped in H. injection H as -> ->. simpl.
      split; [done|]. split; [done|]. by apply quiet_page.
Qed.

(** C9.  When the graph run has returned and the text extracted from its
    conversation is empty once stripped, the analysis block shows the
    error "AI response content is missing or improperly formatted." and
    nothing else after the spinner, and ends normally. *)
Theorem empty_response_is_reported agent enc w conv x out :
  invoke agent recursion_limit (initial_state enc) (ext w) = (inr conv, x) →
  extract str_parts conv = inr out →
  truthy (strip out) = false →
  analysis_section' (Some agent) enc true w
  = (inr tt,
     remove_file image_path (add_ui [spinner; missing_response] (set_ext x w))).
Proof.
  intros Hrun Hout Hempty.
  rewrite extract_texts in Hout. injection Hout as <-.
  rewrite (analysis_section_returned _ _ _ _ _ _ _ Hrun).
  fold (combined conv) in Hempty. by rewrite Hempty.
Qed.

(** C2.  No message class has the type "tool_call", so the second branch
    of the extraction loop is never taken: the extracted text is the
    concatenation of the contents of the AI messages, and that text is
    what the analysis block renders under its heading. *)
Theorem tool_results_never_rendered :
  (∀ m, String.eqb (msg_type m) "tool_call" = false)
  ∧ (∀ conv, extract str_parts conv = inr (concat_texts (List.map ai_text conv)))
  ∧ (∀ agent enc w conv x,
       invoke agent recursion_limit (initial_state enc) (ext w) = (inr conv, x) →
       truthy (strip (concat_texts (List.map ai_text conv))) = true →
       analysis' (Some agent) enc w
       = (inr tt,
          add_ui [(AnalysisContainer, Markdown "### 📋 Analysis Results");
                  (AnalysisContainer, Markdown (concat_texts (List.map ai_text conv)))]
            (set_ext x w))).
Proof.
  split; [apply type_is_never_tool_call|]. split; [apply extract_texts|].
  intros agent enc w conv x Hrun Htext.
  rewrite (analysis_returned _ _ _ _ _ _ _ Hrun). unfold combined. by rewrite Htext.
Qed.

Lemma invoke_sent_prefix llm init r x :
  invoke (graph_builder ddg_search finish llm) recursion_limit init Ext0 = (r, x) →
  Forall (prefix init) (sent x).
Proof.
  intros H. unfold invoke in H.
  change (entry_point (graph_builder ddg_search finish llm)) with (Some "chatbot") in H.
  refine (proj1 (loop_sent_prefix ddg_search finish llm recursion_limit init recursion_limit)
            init Ext0 r x _ _ H).
  - done.
  - constructor.
Qed.

(** C10, as the code has it.  An upload that PIL opens and the PNG
    encoder accepts is stored as PNG under "temp_medical_image.png",
    whatever its name and format, and its base64 text is handed on.  An
    upload that PIL opens but the PNG encoder rejects is not stored: the
    exception of [image.save] leaves the script at line 169, outside the
    [try], with only the head of the page shown, no conversation sent, and
    the file at the path empty if there was one and absent if not.  Every
    conversation the model client receives in an execution starts with the
    user message made of the prompt and, after it, the image as a
    "data:image/png;base64," URL of the stored file's base64 text with
    detail "low"; decoding that text gives the bytes of the file back. *)
Theorem image_saved_as_png_and_sent :
  (∀ f w img png,
     Image_open (upload_data f) = inr img →
     Image_encode img "PNG" = inr png →
     image_section' f w
     = (inr (b64encode png),
        add_ui [(ImageContainer, ShowImage "Uploaded Medical Image");
                (ImageContainer, Button "🔍 Analyze Image")]
          (put_file "temp_medical_image.png" png w)))
  ∧ (∀ inp fs key f img e,
       reruns inp key = false →
       in_upload inp = Some f →
       Image_open (upload_data f) = inr img →
       Image_encode img "PNG" = inl e →
       execute' inp fs key
       = (inl (Raised e),
          mkWorld (match fs !! "temp_medical_image.png" with
                   | Some _ => <["temp_medical_image.png" := []]> fs
                   | None => fs
                   end)
            key (page_head key) Ext0))
  ∧ (∀ inp fs key r w' conv,
       execute' inp fs key = (r, w') →
       conv ∈ sent (ext w') →
       ∃ f img png rest,
         in_upload inp = Some f
         ∧ Image_open (upload_data f) = inr img
         ∧ Image_encode img "PNG" = inr png
         ∧ conv = HumanMessage
                    [TextPart query;
                     ImageUrlPart ("data:image/png;base64," +:+ b64encode png) "low"]
                  :: rest)
  ∧ (∀ png, b64decode (b64encode png) = Some png).
Proof.
  split; [|split; [|split; [|apply b64decode_b64encode]]].
  - intros f w img png Hopen Henc.
    by rewrite image_section_eq, Hopen, Henc.
  - intros inp fs key f img e Hr Hup Hopen Henc.
    unfold execute. rewrite script_no_rerun by done.
    rewrite Hup, Hopen, Henc. unfold save_failed, put_file, add_ui.
    cbn [files OPENAI_API_KEY ui ext].
    change image_path with "temp_medical_image.png".
    by destruct (fs !! "temp_medical_image.png").
  - intros inp fs key r w' conv H Hconv. unfold execute in H.
    apply script_run in H
      as [(s & w1 & evs & H & Hext & _)
         |[(evs & H & _)
          |(f & img & png & evs & Hup & Hopen & Henc & _ & _ & H)]].
    + injection H as -> ->. rewrite Hext in Hconv. by apply elem_of_nil in Hconv.
    + injection H as -> ->. by apply elem_of_nil in Hconv.
    + exists f, img, png.
      assert (Hpre : initial_state (b64encode png) `prefix_of` conv);
        [|destruct Hpre as [rest ->]; exists rest; by repeat split].
      cbn [OPENAI_API_KEY] in H.
      destruct (in_analyze inp);
        [|rewrite analysis_section_skipped in H; injection H as -> ->;
          by apply elem_of_nil in Hconv].
      destruct (agent_for' key) as [agent|] eqn:Hagent;
        [|rewrite analysis_section_no_agent in H; injection H as -> ->;
          by apply elem_of_nil in Hconv].
      assert (∃ k, agent = graph_builder ddg_search finish (ChatOpenAI k)) as [k ->].
      { destruct key as [k|]; [|done]. simpl in Hagent.
        destruct (truthy k); [|done]. injection Hagent as <-. eauto. }
      set (w1 := add_ui evs (put_file image_path png (mkWorld fs key [] Ext0))) in H.
      destruct (invoke (graph_builder ddg_search finish (ChatOpenAI k)) recursion_limit
                  (initial_state (b64encode png)) (ext w1)) as [[e|conv'] x] eqn:Hrun.
      * rewrite (analysis_section_raised _ _ _ _ _ _ _ Hrun) in H.
        injection H as -> ->. simpl in Hconv.
        apply invoke_sent_prefix in Hrun. rewrite Forall_forall in Hrun. by apply Hrun.
      * rewrite (analysis_section_returned _ _ _ _ _ _ _ Hrun) in H.
        injection H as -> ->. simpl in Hconv.
        apply invoke_sent_prefix in Hrun. rewrite Forall_forall in Hrun. by apply Hrun.
Qed.

End ScriptClaims.

Section GraphClaims.

Variable ddg_search : nat -> list (string * string) -> ToolOutcome.
Variable finish : nat -> nat -> nat.
Variable llm : nat -> list Message -> LlmOutcome.
Variable limit : nat.

Local Abbreviation g := (graph_builder ddg_search finish llm).

Lemma invoke_from_chatbot (state : list Message) :
  invoke g limit state Ext0 = pregel_loop g limit limit "chatbot" state Ext0.
Proof. reflexivity. Qed.

Lemma count_rounds k :
  length (List.filter (String.eqb "chatbot") (rounds k ++ ["chatbot"])) = S k
  ∧ length (List.filter (String.eqb "tools") (rounds k ++ ["chatbot"])) = k.
Proof.
  induction k as [|k [IH1 IH2]]; [done|].
  cbn [rounds app List.filter].
  change (String.eqb "chatbot" "chatbot") with true.
  change (String.eqb "chatbot" "tools") with false.
  change (String.eqb "tools" "chatbot") with false.
  change (String.eqb "tools" "tools") with true.
  cbn [length]. by rewrite IH1, IH2.
Qed.

Lemma count_walk n :
  (length (List.filter (String.eqb "chatbot") (walk n "chatbot" "tools")) = Nat.div2 (S n)
   ∧ length (List.filter (String.eqb "tools") (walk n "chatbot" "tools")) = Nat.div2 n)
  ∧ (length (List.filter (String.eqb "chatbot") (walk n "tools" "chatbot")) = Nat.div2 n
     ∧ length (List.filter (String.eqb "tools") (walk n "tools" "chatbot")) = Nat.div2 (S n)).
Proof.
  induction n as [|n [[IH1 IH2] [IH3 IH4]]]; [done|].
  cbn [walk List.filter].
  change (String.eqb "chatbot" "chatbot") with true.
  change (String.eqb "chatbot" "tools") with false.
  change (String.eqb "tools" "chatbot") with false.
  change (String.eqb "tools" "tools") with true.
  cbn [length]. rewrite IH1, IH2, IH3, IH4.
  destruct n; simpl; done.
Qed.

(** C4, as the code has it.  Let the first [k] reasoning steps of a run
    request tools, and let the model client answer without tool calls on
    the next one, given the conversation [k] rounds of chatbot and tools
    have built (the client may choose its reply by the conversation).  The
    loop reaches its end exactly when the library's step limit is above
    the [2 * k + 1] super-steps this takes: then the run returns that
    conversation with the answer appended, after [k + 1] reasoning steps
    and exactly [k] tool steps, chatbot and tools in turn.  With a limit
    of [2 * k + 1] or less the run is aborted with GraphRecursionError
    when the limit is used up, and the answer, if it was given, is lost.
    With [k = 2] and the default limit: exactly two tool steps, then the
    end with the final text. *)
Theorem loop_reaches_done (state conv : list Message) k x a :
  after_rounds ddg_search finish llm k (state, Ext0) = Some (conv, x) →
  llm k conv = LlmReply a [] →
  (2 * k + 1 < limit →
   ∃ x',
     invoke g limit state Ext0 = (inr (conv ++ [AIMessage a []]), x')
     ∧ visited x' = rounds k ++ ["chatbot"]
     ∧ reason_steps x' = S k
     ∧ act_transitions x' = k)
  ∧ (limit ≤ 2 * k + 1 →
     ∃ x',
       invoke g limit state Ext0 = (inl (GraphRecursionError limit), x')
       ∧ length (visited x') = limit).
Proof.
  intros Hrounds Ha. rewrite invoke_from_chatbot. split; intros Hlimit.
  - destruct (loop_after_rounds ddg_search finish llm limit k (limit - 2 * k)
                state Ext0 conv x Hrounds) as (Hloop & Hn & Hv).
    replace (2 * k + (limit - 2 * k)) with limit in Hloop by lia.
    change (llm_calls Ext0 + k) with k in Hn. cbn [visited Ext0 app] in Hv.
    destruct (limit - 2 * k) as [|[|steps]] eqn:Hsteps; [lia|lia|].
    rewrite Hloop, loop_chatbot, Hn, Ha. cbv zeta iota.
    eexists. split; [reflexivity|]. cbn [visited]. rewrite Hv.
    split; [done|]. unfold reason_steps, act_transitions. cbn [visited].
    split; apply count_rounds.
  - destruct (loop_late_answer ddg_search finish llm limit k limit state Ext0 conv x a
                Hrounds) as (x' & Hrun & Hlen).
    + destruct (loop_after_rounds ddg_search finish llm limit k 0 state Ext0 conv x Hrounds)
        as (_ & Hn & _).
      change (llm_calls Ext0 + k) with k in Hn. by rewrite Hn.
    + done.
    + exists x'. split; [done|]. rewrite Hlen. done.
Qed.



(** C7, as the code has it.  In the conversation a run returns, every
    tool message carries the id of at least one tool call requested
    earlier in the conversation, and every requested tool call is followed
    by a tool message with its id.  The id matches exactly one earlier
    request when the model client has given no id twice. *)
Theorem results_correlate_with_requests enc conv x :
  invoke g limit (initial_state enc) Ext0 = (inr conv, x) →
  results_match false [] conv = true
  ∧ requests_answered conv = true
  ∧ (NoDup (requests_in conv) → results_match true [] conv = true).
Proof.
  intros H. rewrite invoke_from_chatbot in H.
  destruct (proj1 (loop_keeps_properties ddg_search finish llm limit limit)
              (initial_state enc) Ext0 conv x eq_refl eq_refl H) as [H1 H2].
  split; [done|]. split; [done|].
  intros Hnd. by apply results_match_once.
Qed.


End GraphClaims.



(** * The claims on examples *)

Lemma temp_file_removed_after_run_witness :
  let res := demo_execute (stub_requests 2 "final text") search_ok 25 (Some "sk-test") in
  spinner ∈ ui res.2 ∧ files res.2 !! image_path = None.
Proof.
  intros res.
  assert (Hsp : spinner ∈ ui res.2).
  { apply (list_elem_of_lookup_2 _ 10). vm_compute. reflexivity. }
  split; [exact Hsp|].
  apply (temp_file_removed_after_run (list byte) demo_open demo_encode
           (fun _ => stub_requests 2 "final text") search_ok demo_finish 25 demo_str_parts
           demo_inputs ∅ (Some "sk-test") res.1 res.2).
  - apply surjective_pairing.
  - exact Hsp.
Defined.

Lemma tool_results_never_rendered_witness :
  let agent := graph_builder search_ok demo_finish (stub_requests 1 "No acute findings.") in
  let w := mkWorld ∅ (Some "sk-test") [] Ext0 in
  ∃ conv x,
    invoke agent 25 (initial_state "TWFu") (ext w) = (inr conv, x)
    ∧ List.map msg_type conv = ["human"; "ai"; "tool"; "ai"]
    ∧ truthy (strip (concat_texts (List.map ai_text conv))) = true
    ∧ analysis 25 demo_str_parts (Some agent) "TWFu" w
      = (inr tt,
         add_ui [(AnalysisContainer, Markdown "### 📋 Analysis Results");
                 (AnalysisContainer, Markdown "No acute findings.")]
           (set_ext x w)).
Proof.
  intros agent w.
  destruct (invoke agent 25 (initial_state "TWFu") (ext w)) as [[e|conv] x] eqn:Hrun;
    [vm_compute in Hrun; discriminate|].
  exists conv, x. split; [reflexivity|].
  assert (Htypes : List.map msg_type conv = ["human"; "ai"; "tool"; "ai"]).
  { vm_compute in Hrun. injection Hrun as <- _. reflexivity. }
  assert (Htext : concat_texts (List.map ai_text conv) = "No acute findings.").
  { vm_compute in Hrun. injection Hrun as <- _. reflexivity. }
  split; [exact Htypes|]. split; [rewrite Htext; reflexivity|].
  rewrite <- Htext.
  apply (proj2 (proj2 (tool_results_never_rendered 25 demo_str_parts))).
  - exact Hrun.
  - rewrite Htext. reflexivity.
Defined.

Lemma no_credential_no_model_call_witness :
  let res := demo_execute (stub_requests 2 "final text") search_ok 25 None in
  sent (ext res.2) = [] ∧ visited (ext res.2) = []
  ∧ no_agent_warning ∈ ui res.2 ∧ page_warning ∈ ui res.2.
Proof.
  intros res.
  destruct (no_credential_no_model_call (list byte) demo_open demo_encode
              (fun _ => stub_requests 2 "final text") search_ok demo_finish 25 demo_str_parts
              demo_inputs ∅ None res.1 res.2) as (Hsent & Hvisited & _ & Hwarn).
  - reflexivity.
  - apply surjective_pairing.
  - split; [exact Hsent|]. split; [exact Hvisited|]. apply Hwarn.
    apply (list_elem_of_lookup_2 _ 11). vm_compute. reflexivity.
Defined.

Lemma loop_reaches_done_witness :
  ∃ conv x,
    invoke (graph_builder search_ok demo_finish (stub_requests 2 "final text")) 25
      (initial_state "TWFu") Ext0
    = (inr (conv ++ [AIMessage "final text" []]), x)
    ∧ visited x = ["chatbot"; "tools"; "chatbot"; "tools"; "chatbot"]
    ∧ reason_steps x = 3
    ∧ act_transitions x = 2.
Proof.
  destruct (after_rounds search_ok demo_finish (stub_requests 2 "final text") 2
              (initial_state "TWFu", Ext0)) as [[conv x0]|] eqn:Hrounds;
    [|vm_compute in Hrounds; discriminate].
  destruct (loop_reaches_done search_ok demo_finish (stub_requests 2 "final text") 25
              (initial_state "TWFu") conv 2 x0 "final text" Hrounds eq_refl)
    as [Hdone _].
  destruct Hdone as (x & Hrun & Hv & Hr & Hact); [lia|].
  exists conv, x. split; [exact Hrun|]. split; [exact Hv|]. split; [exact Hr|exact Hact].
Defined.

(** C4 as stated fails: a model client that requests the search twelve
    times and answers without tool calls on its thirteenth reasoning step
    does not bring the loop to its end under the limit of 25 the script
    runs with; the run is aborted after that step and the answer is
    lost. *)
Lemma answer_at_the_step_limit_is_lost :
  let llm := stub_requests 12 "final text" in
  let res := invoke (graph_builder search_ok demo_finish llm) 25
               (initial_state "TWFu") Ext0 in
  (∀ conv, llm 12 conv = LlmReply "final text" [])
  ∧ res.1 = inl (GraphRecursionError 25)
  ∧ llm_calls res.2 = 13
  ∧ act_transitions res.2 = 12.
Proof.
  cbv zeta. split; [intros conv; reflexivity|].
  vm_compute. split; [reflexivity|]. split; reflexivity.
Qed.




Lemma results_correlate_with_requests_witness :
  ∃ conv x,
    invoke (graph_builder search_ok demo_finish (stub_requests 2 "final text")) 25
      (initial_state "TWFu") Ext0 = (inr conv, x)
    ∧ requests_in conv = ["call_0"; "call_1"]
    ∧ results_match false [] conv = true
    ∧ requests_answered conv = true
    ∧ results_match true [] conv = true.
Proof.
  destruct (invoke (graph_builder search_ok demo_finish (stub_requests 2 "final text")) 25
              (initial_state "TWFu") Ext0) as [[e|conv] x] eqn:Hrun;
    [vm_compute in Hrun; discriminate|].
  exists conv, x. split; [reflexivity|].
  assert (Hids : requests_in conv = ["call_0"; "call_1"]).
  { vm_compute in Hrun. injection Hrun as <- _. reflexivity. }
  destruct (results_correlate_with_requests search_ok demo_finish
              (stub_requests 2 "final text") 25 "TWFu" conv x Hrun) as (H1 & H2 & H3).
  split; [exact Hids|]. split; [exact H1|]. split; [exact H2|].
  apply H3. rewrite Hids. apply (bool_decide_unpack _). vm_compute. exact I.
Defined.

(** C7 as stated fails: when the model client gives two requests the id
    "a", the second tool message matches two earlier requests. *)
Lemma repeated_id_matches_two_requests :
  ∃ conv x,
    invoke (graph_builder search_ok demo_finish stub_same_id) 25 (initial_state "TWFu") Ext0
    = (inr conv, x)
    ∧ List.map result_id conv = [None; None; Some "a"; None; Some "a"; None]
    ∧ requests_in conv = ["a"; "a"]
    ∧ results_match true [] conv = false.
Proof. eexists. eexists. split; [vm_compute; reflexivity|]. vm_compute. done. Qed.

Lemma empty_response_is_reported_witness :
  let agent := graph_builder search_ok demo_finish (stub_requests 1 "  
 ") in
  let w := mkWorld ∅ (Some "sk-test") [] Ext0 in
  ∃ conv x,
    invoke agent 25 (initial_state "TWFu") (ext w) = (inr conv, x)
    ∧ extract demo_str_parts conv = inr "  
 "
    ∧ analysis_section 25 demo_str_parts (Some agent) "TWFu" true w
      = (inr tt, remove_file image_path (add_ui [spinner; missing_response] (set_ext x w))).
Proof.
  intros agent w.
  destruct (invoke agent 25 (initial_state "TWFu") (ext w)) as [[e|conv] x] eqn:Hrun;
    [vm_compute in Hrun; discriminate|].
  exists conv, x. split; [reflexivity|].
  assert (Hout : extract demo_str_parts conv = inr "  
 ").
  { vm_compute in Hrun. injection Hrun as <- _. reflexivity. }
  split; [exact Hout|].
  apply (empty_response_is_reported 25 demo_str_parts agent "TWFu" w conv x "  
 " Hrun Hout).
  reflexivity.
Defined.

Lemma image_saved_as_png_and_sent_witness :
  let res := demo_execute (stub_requests 1 "final text") search_ok 25 (Some "sk-test") in
  image_section (list byte) demo_open demo_encode demo_upload (mkWorld ∅ None [] Ext0)
  = (inr "TWFu",
     add_ui [(ImageContainer, ShowImage "Uploaded Medical Image");
             (ImageContainer, Button "🔍 Analyze Image")]
       (put_file "temp_medical_image.png" [x4d; x61; x6e]%byte (mkWorld ∅ None [] Ext0)))
  ∧ execute (list byte) demo_open cmyk_encode (fun _ => stub_requests 1 "final text")
      search_ok demo_finish 25 demo_str_parts demo_inputs
      {[ "temp_medical_image.png" := [x50; x4e; x47]%byte ]} (Some "sk-test")
    = (inl (Raised cannot_write_cmyk),
       mkWorld {[ "temp_medical_image.png" := [] ]} (Some "sk-test")
         (page_head (Some "sk-test")) Ext0)
  ∧ length (sent (ext res.2)) = 2
  ∧ ∀ conv, conv ∈ sent (ext res.2) →
      ∃ rest, conv = HumanMessage
                       [TextPart query; ImageUrlPart "data:image/png;base64,TWFu" "low"]
                     :: rest.
Proof.
  intros res.
  destruct (image_saved_as_png_and_sent (list byte) demo_open demo_encode
              (fun _ => stub_requests 1 "final text") search_ok demo_finish 25 demo_str_parts)
    as (Hsave & _ & Hsent & _).
  destruct (image_saved_as_png_and_sent (list byte) demo_open cmyk_encode
              (fun _ => stub_requests 1 "final text") search_ok demo_finish 25 demo_str_parts)
    as (_ & Hfail & _ & _).
  split; [|split; [|split]].
  - apply (Hsave demo_upload (mkWorld ∅ None [] Ext0) [x4d; x61; x6e]%byte
             [x4d; x61; x6e]%byte); reflexivity.
  - pose proof (Hfail demo_inputs {[ "temp_medical_image.png" := [x50; x4e; x47]%byte ]}
                  (Some "sk-test") demo_upload [x4d; x61; x6e]%byte cannot_write_cmyk
                  eq_refl eq_refl eq_refl eq_refl) as H.
    rewrite lookup_singleton_eq, insert_singleton_eq in H. exact H.
  - reflexivity.
  - intros conv Hconv.
    destruct (Hsent demo_inputs ∅ (Some "sk-test") res.1 res.2 conv)
      as (f & img & png & rest & Hf & Himg & Hpng & ->).
    + apply surjective_pairing.
    + exact Hconv.
    + exists rest. injection Hf as <-. injection Himg as <-. injection Hpng as <-.
      reflexivity.
Defined.

(** C10 as stated fails: an upload under a JPEG name, which the interface
    accepts and PIL opens, but which the PNG encoder rejects, is not saved
    as PNG.  The exception of [image.save] stops the script, the file that
    was at the path is left empty, and nothing is sent to the model
    client. *)
Lemma accepted_upload_is_not_resaved :
  let fs : gmap string (list byte) :=
    {[ "temp_medical_image.png" := [x50; x4e; x47]%byte ]} in
  let res := execute (list byte) demo_open cmyk_encode
               (fun _ => stub_requests 1 "final text") search_ok demo_finish 25
               demo_str_parts demo_inputs fs (Some "sk-test") in
  in_upload demo_inputs = Some demo_upload
  ∧ upload_name demo_upload = "scan.jpg"
  ∧ in_analyze demo_inputs = true
  ∧ res.1 = inl (Raised cannot_write_cmyk)
  ∧ files res.2 !! "temp_medical_image.png" = Some []
  ∧ ui res.2 = page_head (Some "sk-test")
  ∧ sent (ext res.2) = [].
Proof. vm_compute. repeat split; reflexivity. Qed.

(** C8 on two calls "a" and "b" of which "b" completes first: the search
    tool sees "b" before "a", and the tool messages come in the order
    "a", "b". *)
Example two_calls_b_completes_first :
  tool_node search_ok demo_finish
    [AIMessage "" [mkToolCall ddg_name [("query", "first")] "a";
                   mkToolCall ddg_name [("query", "second")] "b"]] Ext0
  = (inr [ToolMessage "result 1" ddg_name "a"; ToolMessage "result 0" ddg_name "b"],
     mkExt [] 2 []).
Proof. vm_compute. reflexivity. Qed.

(** The same two calls in a whole run: the conversation holds the results
    in the order "a", "b". *)
Example two_calls_in_a_run :
  List.map result_id
    (match invoke (graph_builder search_ok demo_finish stub_two_calls) 25
             (initial_state "TWFu") Ext0 with
     | (inr conv, _) => conv
     | (inl _, _) => []
     end)
  = [None; None; Some "a"; Some "b"; None].
Proof. vm_compute. reflexivity. Qed.

(** [b64encode] on the three lengths of a last group, and [strip] on
    texts with and without content. *)
Example b64encode_three_bytes : b64encode [x4d; x61; x6e]%byte = "TWFu".
Proof. reflexivity. Qed.

Example b64encode_two_bytes : b64encode [x4d; x61]%byte = "TWE=".
Proof. reflexivity. Qed.

Example b64encode_one_byte : b64encode [x4d]%byte = "TQ==".
Proof. reflexivity. Qed.

Example strip_keeps_the_text : strip "  ### Findings
- none
 " = "### Findings
- none".
Proof. reflexivity. Qed.

Example strip_of_blanks : strip " 	
 " = "".
Proof. reflexivity. Qed.

(** An execution with an upload but without a press on Analyze leaves
    the temporary file in place: only an analysis run removes it. *)
Example upload_without_analysis_keeps_the_file :
  let inp := mkInputs "" false (Some demo_upload) false in
  let res := execute (list byte) demo_open demo_encode (fun _ => stub_always) search_ok
               demo_finish 25 demo_str_parts inp ∅ (Some "sk-test") in
  files res.2 !! image_path = Some [x4d; x61; x6e]%byte.
Proof. vm_compute. reflexivity. Qed.

(** * Further properties of the graph run *)

Section GraphRuns.

Variable ddg_search : nat -> list (string * string) -> ToolOutcome.
Variable finish : nat -> nat -> nat.
Variable llm : nat -> list Message -> LlmOutcome.
Variable limit : nat.

Local Abbreviation g := (graph_builder ddg_search finish llm).

(** The nodes run in turn, chatbot first, and no more of them than the
    steps that are left. *)
Lemma loop_shape steps :
  (∀ s x,
     ∃ n, n ≤ steps
          ∧ visited (pregel_loop g limit steps "chatbot" s x).2
            = visited x ++ walk n "chatbot" "tools"
          ∧ llm_calls (pregel_loop g limit steps "chatbot" s x).2
            = llm_calls x + Nat.div2 (S n))
  ∧ (∀ (s : list Message) c calls x,
     ∃ n, n ≤ steps
          ∧ visited (pregel_loop g limit steps "tools" (s ++ [AIMessage c calls]) x).2
            = visited x ++ walk n "tools" "chatbot"
          ∧ llm_calls (pregel_loop g limit steps "tools" (s ++ [AIMessage c calls]) x).2
            = llm_calls x + Nat.div2 n).
Proof.
  induction steps as [|steps [IHc IHt]].
  - split; intros; exists 0; rewrite loop_exhausted; simpl;
      rewrite app_nil_r; (split; [lia|split; [done|lia]]).
  - split.
    + intros s x. rewrite loop_chatbot. cbv zeta.
      set (x1 := mkExt (sent x ++ [s]) (tool_runs x) (visited x ++ ["chatbot"])).
      assert (H1 : llm_calls x1 = llm_calls x + 1).
      { unfold llm_calls, x1. cbn [sent]. by rewrite length_app. }
      destruct (llm (llm_calls x) s) as [c [|call calls]|e].
      * exists 1. split; [lia|]. destruct steps; simpl; split; done.
      * destruct (IHt s c (call :: calls) x1) as (n & Hn & Hv & Hc).
        exists (S n). split; [lia|]. rewrite Hv, Hc, H1. unfold x1. cbn [visited walk].
        rewrite <- app_assoc. split; [done|]. simpl. destruct n; lia.
      * exists 1. split; [lia|]. simpl. split; done.
    + intros s c calls x.
      destruct (loop_tools ddg_search finish llm limit steps s c calls x) as (outs & _ & ->).
      set (x1 := mkExt (sent x) (tool_runs x + length calls) (visited x ++ ["tools"])).
      destruct (IHc (s ++ [AIMessage c calls] ++ outs) x1) as (n & Hn & Hv & Hc).
      exists (S n). split; [lia|]. rewrite Hv, Hc. unfold x1, llm_calls. cbn [visited sent walk].
      rewrite <- app_assoc. split; [done|]. simpl. done.
Qed.

Lemma extends_app (a : list Message) b more : extends a b → extends a (b ++ more).
Proof.
  intros (m & Hm & ->). exists (m ++ more). split.
  - destruct m; [done|discriminate].
  - by rewrite app_assoc.
Qed.

Lemma extends_snoc (a : list Message) m more : extends a (a ++ m :: more).
Proof. exists (m :: more). split; [discriminate|done]. Qed.

Lemma increasing_snoc l (s : list Message) :
  increasing l → Forall (fun a => extends a s) l → increasing (l ++ [s]).
Proof.
  induction l as [|a l IH]; intros Hl Hs; simpl; [by split|].
  destruct Hl as [Ha Hl]. apply Forall_cons in Hs as [Has Hs].
  split; [|by apply IH]. apply Forall_app. split; [done|]. by constructor.
Qed.

(** The conversations sent to the model client grow, and a run that
    returns gives back a conversation that extends them all, keeps the
    state it started from at its front and ends with an answer without
    tool calls. *)
Lemma loop_grows steps :
  (∀ s x r x',
     increasing (sent x) → Forall (fun a => extends a s) (sent x) →
     pregel_loop g limit steps "chatbot" s x = (r, x') →
     increasing (sent x')
     ∧ ∀ conv, r = inr conv →
         Forall (fun a => extends a conv) (sent x')
         ∧ s `prefix_of` conv
         ∧ ∃ front a, conv = front ++ [AIMessage a []])
  ∧ (∀ (s : list Message) c calls x r x',
     increasing (sent x) → Forall (fun a => extends a (s ++ [AIMessage c calls])) (sent x) →
     pregel_loop g limit steps "tools" (s ++ [AIMessage c calls]) x = (r, x') →
     increasing (sent x')
     ∧ ∀ conv, r = inr conv →
         Forall (fun a => extends a conv) (sent x')
         ∧ (s ++ [AIMessage c calls]) `prefix_of` conv
         ∧ ∃ front a, conv = front ++ [AIMessage a []]).
Proof.
  induction steps as [|steps [IHc IHt]].
  - split; intros *; intros Hi Hs H; rewrite loop_exhausted in H;
      injection H as <- <-; (split; [done|]); intros conv; discriminate.
  - split.
    + intros s x r x' Hi Hs H. rewrite loop_chatbot in H. cbv zeta in H.
      assert (Hi1 : increasing (sent x ++ [s])) by by apply increasing_snoc.
      assert (Hs1 : ∀ m more, Forall (fun a => extends a (s ++ m :: more)) (sent x ++ [s])).
      { intros m more. apply Forall_app. split.
        - eapply Forall_impl; [exact Hs|]. intros a Ha. by apply extends_app.
        - constructor; [apply extends_snoc|constructor]. }
      destruct (llm (llm_calls x) s) as [c [|call calls]|e].
      * destruct steps.
        -- injection H as <- <-. split; [done|]. intros conv; discriminate.
        -- injection H as <- <-. split; [done|]. intros conv [= <-].
           split; [apply Hs1|]. split; [by apply prefix_app_r|]. by exists s, c.
      * destruct (IHt s c (call :: calls)
                    (mkExt (sent x ++ [s]) (tool_runs x) (visited x ++ ["chatbot"]))
                    r x' Hi1 (Hs1 _ _) H) as [Hinc Hdone].
        split; [done|]. intros conv Hr. destruct (Hdone conv Hr) as (Ha & Hp & He).
        split; [done|]. split; [|done].
        etrans; [|exact Hp]. by apply prefix_app_r.
      * injection H as <- <-. split; [done|]. intros conv; discriminate.
    + intros s c calls x r x' Hi Hs H.
      destruct (loop_tools ddg_search finish llm limit steps s c calls x) as (outs & _ & Hstep).
      rewrite Hstep in H. rewrite app_assoc in H.
      destruct (IHc ((s ++ [AIMessage c calls]) ++ outs)
                  (mkExt (sent x) (tool_runs x + length calls) (visited x ++ ["tools"]))
                  r x' Hi
                  (Forall_impl _ _ _ Hs (fun a Ha => extends_app a _ outs Ha)) H)
        as [Hinc Hdone].
      split; [done|]. intros conv Hr. destruct (Hdone conv Hr) as (Ha & Hp & He).
      split; [done|]. split; [|done].
      etrans; [|exact Hp]. by apply prefix_app_r.
Qed.

Lemma filter_ai_results tools calls outs :
  Forall2 (answers tools) calls outs → List.filter is_ai outs = [].
Proof.
  induction 1 as [|call m calls outs Hm _ IH]; [done|].
  destruct (answers_shape _ _ _ Hm) as [text ->]. simpl. exact IH.
Qed.

Lemma replies_snoc inputs (s : list Message) :
  replies llm (inputs ++ [s]) = replies llm inputs ++ [llm (length inputs) s].
Proof.
  unfold replies. rewrite imap_app. simpl. by rewrite Nat.add_0_r.
Qed.

(** The AI messages of the conversation are the replies of the model
    client, in the order of its calls. *)
Lemma loop_replies (base : list Message) steps :
  (∀ s x conv x',
     List.filter is_ai s
     = base ++ List.concat (List.map reply_messages (replies llm (sent x))) →
     pregel_loop g limit steps "chatbot" s x = (inr conv, x') →
     List.filter is_ai conv
     = base ++ List.concat (List.map reply_messages (replies llm (sent x'))))
  ∧ (∀ (s : list Message) c calls x conv x',
     List.filter is_ai (s ++ [AIMessage c calls])
     = base ++ List.concat (List.map reply_messages (replies llm (sent x))) →
     pregel_loop g limit steps "tools" (s ++ [AIMessage c calls]) x = (inr conv, x') →
     List.filter is_ai conv
     = base ++ List.concat (List.map reply_messages (replies llm (sent x')))).
Proof.
  induction steps as [|steps [IHc IHt]].
  - split; intros *; intros _ H; by rewrite loop_exhausted in H.
  - split.
    + intros s x conv x' Hs H. rewrite loop_chatbot in H. cbv zeta in H.
      assert (Hnext : ∀ c calls,
                llm (llm_calls x) s = LlmReply c calls →
                List.filter is_ai (s ++ [AIMessage c calls])
                = base ++ List.concat (List.map reply_messages (replies llm (sent x ++ [s])))).
      { intros c calls Hc. rewrite List.filter_app, Hs, replies_snoc.
        rewrite List.map_app, List.concat_app. fold (llm_calls x). rewrite Hc.
        simpl. by rewrite <- app_assoc. }
      destruct (llm (llm_calls x) s) as [c [|call calls]|e] eqn:Hc; [| |done].
      * destruct steps; [done|]. injection H as <- <-. cbn [sent]. by apply Hnext.
      * eapply IHt; [|exact H]. cbn [sent]. by apply Hnext.
    + intros s c calls x conv x' Hs H.
      destruct (loop_tools ddg_search finish llm limit steps s c calls x) as (outs & Ho & Hstep).
      rewrite Hstep in H. rewrite app_assoc in H.
      eapply IHc in H; [exact H|]. cbn [sent].
      by rewrite List.filter_app, (filter_ai_results _ _ _ Ho), app_nil_r.
Qed.


End GraphRuns.

Lemma div2_le n m : n ≤ m → Nat.div2 n ≤ Nat.div2 m.
Proof. intros H. rewrite !Nat.div2_div. by apply Nat.Div0.div_le_mono. Qed.

Lemma texts_of_replies rs :
  concat_texts (List.map ai_text (List.concat (List.map reply_messages rs)))
  = concat_texts (List.map reply_text rs).
Proof.
  induction rs as [|[c calls|e] rs IH]; [done| |exact IH].
  cbn [List.map List.concat reply_messages reply_text app concat_texts fold_right ai_text].
  f_equal. exact IH.
Qed.

Lemma combined_filter_ai conv :
  combined conv = combined (List.filter is_ai conv).
Proof.
  unfold combined, concat_texts. induction conv as [|m conv IH]; [done|].
  destruct m; simpl; [exact IH| |exact IH].
  f_equal. exact IH.
Qed.

Section GraphRunClaims.

Variable ddg_search : nat -> list (string * string) -> ToolOutcome.
Variable finish : nat -> nat -> nat.
Variable llm : nat -> list Message -> LlmOutcome.
Variable limit : nat.

Local Abbreviation g := (graph_builder ddg_search finish llm).

(** X1.  Whatever the model client and the search tool do, a run executes
    at most [limit] nodes, chatbot and tools in turn starting with the
    chatbot; the model client is called once per chatbot step, so at most
    [(limit + 1) / 2] times, and the tools node runs at most [limit / 2]
    times. *)
Theorem run_stays_within_step_limit (state : list Message) :
  ∃ n, n ≤ limit
       ∧ visited (invoke g limit state Ext0).2 = walk n "chatbot" "tools"
       ∧ llm_calls (invoke g limit state Ext0).2 = reason_steps (invoke g limit state Ext0).2
       ∧ llm_calls (invoke g limit state Ext0).2 ≤ Nat.div2 (S limit)
       ∧ act_transitions (invoke g limit state Ext0).2 ≤ Nat.div2 limit.
Proof.
  rewrite invoke_from_chatbot.
  destruct (proj1 (loop_shape ddg_search finish llm limit limit) state Ext0)
    as (n & Hn & Hv & Hc).
  exists n. simpl in Hv.
  change (llm_calls Ext0 + Nat.div2 (S n)) with (Nat.div2 (S n)) in Hc.
  split; [done|]. split; [done|].
  unfold reason_steps, act_transitions. rewrite Hv, Hc.
  destruct (count_walk n) as [[-> ->] _].
  split; [done|]. split; apply div2_le; lia.
Qed.

(** X2.  A run returns only after a reply of the model client without
    tool calls: the returned conversation ends with that AI message, the
    router sends it to the end, and the state the run started from is
    still at its front. *)
Theorem returned_conversation_ends_with_answer (state conv : list Message) x :
  invoke g limit state Ext0 = (inr conv, x) →
  state `prefix_of` conv
  ∧ (∃ front a, conv = front ++ [AIMessage a []])
  ∧ tools_condition conv = inr END.
Proof.
  intros H. rewrite invoke_from_chatbot in H.
  destruct (proj1 (loop_grows ddg_search finish llm limit limit) state Ext0 (inr conv) x)
    as [_ Hdone]; [done|constructor|exact H|].
  destruct (Hdone conv eq_refl) as (_ & Hp & front & a & ->).
  split; [done|]. split; [by exists front, a|].
  unfold tools_condition. by rewrite last_snoc.
Qed.

(** X3.  The conversation only grows during a run: every conversation
    sent to the model client extends all those sent before it, and the
    conversation a run returns extends every one of them. *)
Theorem conversation_only_grows (state : list Message) :
  increasing (sent (invoke g limit state Ext0).2)
  ∧ ∀ conv, (invoke g limit state Ext0).1 = inr conv →
      Forall (fun a => extends a conv) (sent (invoke g limit state Ext0).2).
Proof.
  rewrite invoke_from_chatbot.
  destruct (pregel_loop g limit limit "chatbot" state Ext0) as [r x] eqn:H.
  destruct (proj1 (loop_grows ddg_search finish llm limit limit) state Ext0 r x)
    as [Hinc Hdone]; [done|constructor|exact H|].
  split; [exact Hinc|]. intros conv Hr. by destruct (Hdone conv Hr).
Qed.

(** X4.  The AI messages of the conversation a run returns are the
    replies of the model client, one per call and in the order of the
    calls, so the text the extraction loop builds is the texts of all the
    replies one after the other, those that came with tool calls
    included, not the last answer alone. *)
Theorem rendered_text_is_all_replies str_parts enc conv x :
  invoke g limit (initial_state enc) Ext0 = (inr conv, x) →
  List.filter is_ai conv = List.concat (List.map reply_messages (replies llm (sent x)))
  ∧ extract str_parts conv = inr (concat_texts (List.map reply_text (replies llm (sent x)))).
Proof.
  intros H. rewrite invoke_from_chatbot in H.
  pose proof (proj1 (loop_replies ddg_search finish llm limit [] limit)
                (initial_state enc) Ext0 conv x eq_refl H) as Hai.
  simpl in Hai. split; [exact Hai|].
  rewrite extract_texts. fold (combined conv).
  rewrite combined_filter_ai, Hai. unfold combined. by rewrite texts_of_replies.
Qed.


End GraphRunClaims.

(** * Further properties of ToolNode in the script *)

Lemma Forall2_map_fun {A B} (f : A -> B) l l' :
  Forall2 (fun a b => b = f a) l l' → l' = List.map f l.
Proof. induction 1 as [|a b l l' -> _ IH]; [done|]. simpl. by rewrite IH. Qed.

(** X6.  A tool call that names a tool other than the registered search
    tool is not an error of the run: ToolNode answers it with a tool
    message that says the name is not a valid tool and lists
    "duckduckgo_search", whatever the search tool would do. *)
Theorem unknown_tool_is_answered_with_error ddg_search finish
    (state : list Message) c calls x :
  Forall (fun call => String.eqb ddg_name (tc_name call) = false) calls →
  (tool_node ddg_search finish (state ++ [AIMessage c calls]) x).1
  = inr (List.map
           (fun call =>
              ToolMessage (invalid_tool_text [ddg_name] (tc_name call))
                (tc_name call) (tc_id call))
           calls).
Proof.
  intros Hnames.
  destruct (ToolNode_handled (tools ddg_search) finish state c calls x)
    as (outs & Hrun & Ho).
  unfold tool_node, default_handle_tool_errors. rewrite Hrun. cbn [fst]. f_equal.
  apply Forall2_map_fun.
  apply Forall2_same_length_lookup. split; [by eapply Forall2_length|].
  intros i call m Hcall Hm.
  destruct (Forall2_lookup_l _ _ _ _ _ Ho Hcall) as (m' & Hm' & rank & Hone).
  rewrite Hm in Hm'. injection Hm' as <-.
  rewrite Forall_forall in Hnames.
  assert (Hname : String.eqb ddg_name (tc_name call) = false).
  { apply Hnames. apply list_elem_of_lookup. eauto. }
  unfold run_one, tools, ddg_tool in Hone. cbn [tools_by_name tool_name List.map] in Hone.
  rewrite Hname in Hone. by injection Hone as <-.
Qed.

(** X7.  A single call of the search tool is run with the arguments the
    model gave, and its tool message carries the text the search returned
    or, when the search raised, "Error: " with the exception and the
    request to fix the mistakes; the id is the id of the call. *)
Theorem single_call_gets_tool_output ddg_search finish (state : list Message) c call x :
  String.eqb ddg_name (tc_name call) = true →
  (tool_node ddg_search finish (state ++ [AIMessage c [call]]) x).1
  = inr [ToolMessage
           (match ddg_search (tool_runs x) (tc_args call) with
            | ToolReturn out => out
            | ToolRaise e => tool_error_text e
            end)
           (tc_name call) (tc_id call)].
Proof.
  intros Hname. unfold tool_node, ToolNode, default_handle_tool_errors.
  rewrite last_snoc. cbn [fst length]. unfold executor_map, futures, completion_order.
  cbn [imap foldr insert_by_finish seq omap fst snd list_to_map].
  cbn [list_omap]. rewrite lookup_insert_eq. cbn [collect].
  unfold run_one, tools, ddg_tool. cbn [tools_by_name tool_name tool_invoke].
  rewrite Hname, Nat.add_0_r.
  cbn [tool_invoke]. by destruct (ddg_search (tool_runs x) (tc_args call)).
Qed.

(** * Further properties of the script *)

Section ScriptRuns.

Variable Image : Type.
Variable Image_open : list byte -> PyException + Image.
Variable Image_encode : Image -> string -> PyException + list byte.
Variable ChatOpenAI : string -> nat -> list Message -> LlmOutcome.
Variable ddg_search : nat -> list (string * string) -> ToolOutcome.
Variable finish : nat -> nat -> nat.
Variable recursion_limit : nat.
Variable str_parts : list Part -> string.

Local Abbreviation analysis_section' := (analysis_section recursion_limit str_parts).
Local Abbreviation agent_for' := (agent_for ChatOpenAI ddg_search finish).
Local Abbreviation script' :=
  (script Image Image_open Image_encode ChatOpenAI ddg_search finish recursion_limit str_parts).
Local Abbreviation execute' :=
  (execute Image Image_open Image_encode ChatOpenAI ddg_search finish recursion_limit str_parts).

(** What the analysis block leaves, whatever the agent does: it ends
    normally, with the spinner and one further outcome on the page and the
    temporary file removed. *)
Lemma analysis_section_outcome agent enc w :
  ∃ x outcome,
    analysis_section' agent enc true w
    = (inr tt, remove_file image_path (add_ui (spinner :: outcome) (set_ext x w)))
    ∧ (outcome = [no_agent_warning] ∧ agent = None ∧ x = ext w
       ∨ (∃ g e, agent = Some g ∧ outcome = [analysis_error e]
                 ∧ invoke g recursion_limit (initial_state enc) (ext w) = (inl e, x))
       ∨ (∃ g conv, agent = Some g
                    ∧ invoke g recursion_limit (initial_state enc) (ext w) = (inr conv, x)
                    ∧ (truthy (strip (combined conv)) = false ∧ outcome = [missing_response]
                       ∨ truthy (strip (combined conv)) = true
                         ∧ outcome = [results_heading;
                                      (AnalysisContainer, Markdown (combined conv))]))).
Proof.
  destruct agent as [g|].
  - destruct (invoke g recursion_limit (initial_state enc) (ext w)) as [[e|conv] x] eqn:Hrun.
    + exists x, [analysis_error e]. split.
      * by apply analysis_section_raised.
      * right. left. by exists g, e.
    + exists x. eexists. split.
      * by apply analysis_section_returned.
      * right. right. exists g, conv. split; [done|]. split; [done|].
        destruct (truthy (strip (combined conv))); [right|left]; done.
  - exists (ext w), [no_agent_warning]. split.
    + rewrite analysis_section_no_agent. by destruct w.
    + by left.
Qed.


Lemma execute_rerun inp fs key :
  reruns inp key = true →
  execute' inp fs key
  = (inl RerunRequested,
     mkWorld fs (key_after inp key)
       (sidebar_head key ++ (if key_truthy key then [] else [key_saved])) Ext0).
Proof. intros H. unfold execute. by rewrite script_rerun. Qed.

Lemma execute_no_rerun inp fs key :
  reruns inp key = false →
  execute' inp fs key
  = match in_upload inp with
    | None => (inr tt, mkWorld fs key (page_head key ++ [upload_hint]) Ext0)
    | Some f =>
        match Image_open (upload_data f) with
        | inl e => (inl (Raised e), mkWorld fs key (page_head key) Ext0)
        | inr img =>
            match Image_encode img "PNG" with
            | inl e =>
                (inl (Raised e),
                 save_failed image_path (mkWorld fs key (page_head key) Ext0))
            | inr png =>
                analysis_section' (agent_for' key) (b64encode png) (in_analyze inp)
                  (mkWorld (<[image_path := png]> fs) key
                     (page_head key ++ [shown_image; analyze_button]) Ext0)
            end
        end
    end.
Proof. intros H. unfold execute. by rewrite script_no_rerun. Qed.

Lemma save_failed_files path w other :
  other ≠ path → files (save_failed path w) !! other = files w !! other.
Proof.
  intros H. unfold save_failed. destruct (files w !! path); [|done].
  cbn [put_file files]. by rewrite lookup_insert_ne.
Qed.

Lemma key_after_no_rerun inp key : reruns inp key = false → key_after inp key = key.
Proof.
  unfold reruns, key_after. destruct (key_truthy key); by intros ->.
Qed.

Lemma page_head_outside key : Forall outside_analysis (page_head key).
Proof.
  unfold page_head, sidebar_head.
  destruct (key_truthy key); repeat constructor; discriminate.
Qed.

Lemma disclaimer_in_page_head key : disclaimer ∈ page_head key.
Proof.
  unfold page_head. apply elem_of_app. right. constructor. constructor.
Qed.

(** X8.  Apart from "temp_medical_image.png" the script touches no file:
    after any execution every other path holds what it held before. *)
Theorem only_temp_file_touched inp fs key path :
  path ≠ image_path →
  files (execute' inp fs key).2 !! path = fs !! path.
Proof.
  intros Hpath. destruct (reruns inp key) eqn:Hr.
  - by rewrite execute_rerun.
  - rewrite execute_no_rerun by done.
    destruct (in_upload inp) as [f|]; [|done].
    destruct (Image_open (upload_data f)) as [e|img]; [done|].
    destruct (Image_encode img "PNG") as [e|png];
      [cbn [snd]; by rewrite save_failed_files|].
    destruct (in_analyze inp).
    + match goal with
      | |- context [analysis_section' ?a ?enc true ?w] =>
          destruct (analysis_section_outcome a enc w) as (x & outcome & -> & _)
      end.
      cbn [snd files remove_file add_ui set_ext].
      rewrite lookup_delete_ne by done. by rewrite lookup_insert_ne.
    + rewrite analysis_section_skipped. cbn [snd files].
      by rewrite lookup_insert_ne.
Qed.

(** X9.  An execution with an upload that PIL opens and encodes, and
    without a press on Analyze, ends normally and leaves the PNG at
    "temp_medical_image.png", in place of whatever was there; the page
    ends with the image and the Analyze button, and no graph run took
    place. *)
Theorem upload_without_analysis_leaves_file inp fs key f img png :
  reruns inp key = false →
  in_upload inp = Some f →
  Image_open (upload_data f) = inr img →
  Image_encode img "PNG" = inr png →
  in_analyze inp = false →
  execute' inp fs key
  = (inr tt,
     mkWorld (<[image_path := png]> fs) key
       (page_head key ++ [shown_image; analyze_button]) Ext0).
Proof.
  intros Hr Hup Hopen Henc Han.
  by rewrite execute_no_rerun, Hup, Hopen, Henc, Han.
Qed.

Lemma execute_key inp fs key :
  OPENAI_API_KEY (execute' inp fs key).2 = key_after inp key.
Proof.
  destruct (reruns inp key) eqn:Hr.
  - by rewrite execute_rerun.
  - rewrite execute_no_rerun, key_after_no_rerun by done.
    destruct (in_upload inp) as [f|]; [|done].
    destruct (Image_open (upload_data f)) as [e|img]; [done|].
    destruct (Image_encode img "PNG") as [e|png];
      [unfold save_failed; cbn [files]; by destruct (fs !! image_path)|].
    destruct (in_analyze inp); [|done].
    match goal with
    | |- context [analysis_section' ?a ?enc true ?w] =>
        destruct (analysis_section_outcome a enc w) as (x & outcome & -> & _)
    end.
    done.
Qed.

Lemma execute_stop inp fs key :
  (execute' inp fs key).1 = inl RerunRequested ↔ reruns inp key = true.
Proof.
  destruct (reruns inp key) eqn:Hr.
  - by rewrite execute_rerun.
  - rewrite execute_no_rerun by done. split; [|done].
    destruct (in_upload inp) as [f|]; [|done].
    destruct (Image_open (upload_data f)) as [e|img]; [done|].
    destruct (Image_encode img "PNG") as [e|png];
      [unfold save_failed; cbn [files]; by destruct (fs !! image_path)|].
    destruct (in_analyze inp); [|done].
    match goal with
    | |- context [analysis_section' ?a ?enc true ?w] =>
        destruct (analysis_section_outcome a enc w) as (x & outcome & -> & _)
    end.
    done.
Qed.

(** X10.  The key slot changes only in the sidebar, and then the
    execution stops with a rerun: a text typed while no key is set is
    stored, the reset button clears a set key, and in both cases nothing
    of the page below the sidebar is shown, no file is written and no
    graph runs; in every other execution the slot is left as it was, and
    a text typed while a key is set is never read. *)
Theorem key_changes_only_with_rerun inp fs key :
  OPENAI_API_KEY (execute' inp fs key).2
  = (if key_truthy key then (if in_reset inp then None else key)
     else if truthy (in_api_key inp) then Some (in_api_key inp) else key)
  ∧ ((execute' inp fs key).1 = inl RerunRequested
     ↔ (if key_truthy key then in_reset inp else truthy (in_api_key inp)) = true)
  ∧ ((execute' inp fs key).1 = inl RerunRequested →
     (execute' inp fs key).2
     = mkWorld fs (key_after inp key)
         (sidebar_head key ++ (if key_truthy key then [] else [key_saved])) Ext0)
  ∧ ((execute' inp fs key).1 ≠ inl RerunRequested →
     OPENAI_API_KEY (execute' inp fs key).2 = key).
Proof.
  split; [apply execute_key|]. split; [apply execute_stop|]. split.
  - intros H. apply execute_stop in H. by rewrite execute_rerun.
  - intros H. rewrite execute_key. apply key_after_no_rerun.
    destruct (reruns inp key) eqn:Hr; [|done].
    exfalso. apply H. by apply execute_stop.
Qed.

(** X11.  The key slot never comes to hold an empty text: when it is
    unset or non-empty before an execution, it is so after it. *)
Theorem key_slot_never_empty inp fs key :
  key_well_formed key →
  key_well_formed (OPENAI_API_KEY (execute' inp fs key).2).
Proof.
  intros Hkey. rewrite execute_key. unfold key_after, key_well_formed in *.
  destruct (key_truthy key) eqn:Hk.
  - destruct (in_reset inp); [by left|by right].
  - destruct (truthy (in_api_key inp)) eqn:Ht; [by right|].
    destruct Hkey as [->|Hf]; [by left|congruence].
Qed.

(** X12.  Without an upload an execution that does not rerun ends
    normally with the hint to upload an image as the last element of the
    page; it writes no file and runs no graph. *)
Theorem no_upload_shows_hint inp fs key :
  reruns inp key = false →
  in_upload inp = None →
  execute' inp fs key
  = (inr tt, mkWorld fs key (page_head key ++ [upload_hint]) Ext0).
Proof. intros Hr Hup. by rewrite execute_no_rerun, Hup. Qed.

(** X13.  An upload that [Image.open] rejects is outside the [try]: the
    exception leaves the script uncaught, before any file is written, the
    image or the Analyze button is shown, or a graph runs. *)
Theorem unreadable_upload_stops_the_script inp fs key f e :
  reruns inp key = false →
  in_upload inp = Some f →
  Image_open (upload_data f) = inl e →
  execute' inp fs key = (inl (Raised e), mkWorld fs key (page_head key) Ext0).
Proof. intros Hr Hup Hopen. by rewrite execute_no_rerun, Hup, Hopen. Qed.

(** X14.  The analysis block never lets an exception out and always
    tells the user how the run ended: after the spinner it shows exactly
    one of the no-agent warning, an "Analysis error: ..." message, the
    missing-response error, or the results heading followed by a text
    that is not blank; then the temporary file is removed. *)
Theorem analysis_block_has_one_outcome agent enc w :
  ∃ x outcome,
    analysis_section' agent enc true w
    = (inr tt, remove_file image_path (add_ui (spinner :: outcome) (set_ext x w)))
    ∧ (outcome = [no_agent_warning]
       ∨ (∃ e, outcome = [analysis_error e])
       ∨ outcome = [missing_response]
       ∨ (∃ text, truthy (strip text) = true
                  ∧ outcome = [results_heading; (AnalysisContainer, Markdown text)])).
Proof.
  destruct (analysis_section_outcome agent enc w)
    as (x & outcome & Hrun & [(-> & _)|[(g & e & _ & -> & _)|(g & conv & _ & _ & H)]]).
  - exists x. eexists. split; [exact Hrun|]. by left.
  - exists x. eexists. split; [exact Hrun|]. right. left. by exists e.
  - exists x, outcome. split; [exact Hrun|].
    destruct H as [[_ ->]|[Ht ->]].
    + right. right. by left.
    + right. right. right. by exists (combined conv).
Qed.

(** X15.  The disclaimer is on the page of every execution that gets
    past the sidebar, whatever happens later (no upload, an image that
    cannot be read, an analysis that fails), and only of those. *)
Theorem disclaimer_shown_unless_rerun inp fs key :
  disclaimer ∈ ui (execute' inp fs key).2 ↔ reruns inp key = false.
Proof.
  destruct (reruns inp key) eqn:Hr.
  - rewrite execute_rerun by done. cbn [snd ui]. split; [|done].
    unfold sidebar_head. intros H.
    destruct (key_truthy key);
      repeat (apply elem_of_app in H as [H|H] || apply elem_of_cons in H as [H|H]);
      try discriminate; by apply elem_of_nil in H.
  - split; [done|]. intros _. rewrite execute_no_rerun by done.
    pose proof (disclaimer_in_page_head key) as Hd.
    destruct (in_upload inp) as [f|]; [|by apply elem_of_app; left].
    destruct (Image_open (upload_data f)) as [e|img]; [done|].
    destruct (Image_encode img "PNG") as [e|png];
      [unfold save_failed; cbn [files]; by destruct (fs !! image_path)|].
    destruct (in_analyze inp).
    + match goal with
      | |- context [analysis_section' ?a ?enc true ?w] =>
          destruct (analysis_section_outcome a enc w) as (x & outcome & -> & _)
      end.
      cbn [snd ui remove_file add_ui set_ext].
      apply elem_of_app. left. apply elem_of_app. by left.
    + rewrite analysis_section_skipped. cbn [snd ui]. apply elem_of_app. by left.
Qed.

(** X16.  An analysis run starts exactly when the execution gets past
    the sidebar, the Analyze button is pressed and the upload is one that
    PIL opens and encodes as PNG. *)
Theorem analysis_starts_iff inp fs key :
  spinner ∈ ui (execute' inp fs key).2
  ↔ reruns inp key = false
    ∧ in_analyze inp = true
    ∧ ∃ f img png,
        in_upload inp = Some f
        ∧ Image_open (upload_data f) = inr img
        ∧ Image_encode img "PNG" = inr png.
Proof.
  assert (Hout : ∀ evs, Forall outside_analysis evs → spinner ∉ evs).
  { intros evs H. by apply not_in_outside. }
  destruct (reruns inp key) eqn:Hr.
  - rewrite execute_rerun by done. cbn [snd ui]. split; [|by intros [? _]].
    intros H. exfalso. revert H. apply Hout. unfold sidebar_head.
    destruct (key_truthy key); repeat constructor; discriminate.
  - rewrite execute_no_rerun by done.
    pose proof (page_head_outside key) as Hhead.
    destruct (in_upload inp) as [f|].
    2: { split; [|by intros (_ & _ & ? & ? & ? & ? & _)].
         intros H. exfalso. revert H. apply Hout. cbn [snd ui].
         apply Forall_app. split; [done|]. repeat constructor; discriminate. }
    destruct (Image_open (upload_data f)) as [e|img] eqn:Hopen.
    { split; [intros H; exfalso; revert H; by apply Hout|].
      intros (_ & _ & f' & img' & png' & [= <-] & Himg & _). congruence. }
    destruct (Image_encode img "PNG") as [e|png] eqn:Henc.
    { split.
      - intros H. exfalso. revert H. apply Hout. cbn [snd].
        by destruct (save_failed_rest image_path (mkWorld fs key (page_head key) Ext0))
          as (_ & -> & _).
      - intros (_ & _ & f' & img' & png' & [= <-] & Himg & Hpng). congruence. }
    destruct (in_analyze inp).
    + match goal with
      | |- context [analysis_section' ?a ?enc true ?w] =>
          destruct (analysis_section_outcome a enc w) as (x & outcome & -> & _)
      end.
      cbn [snd ui remove_file add_ui set_ext]. split.
      * intros _. split; [done|]. split; [done|]. by exists f, img, png.
      * intros _. apply elem_of_app. right. by left.
    + rewrite analysis_section_skipped. cbn [snd ui]. split; [|by intros (_ & ? & _)].
      intros H. exfalso. revert H. apply Hout.
      apply Forall_app. split; [done|]. repeat constructor; discriminate.
Qed.

(** X17.  One full execution with a key [k] in the slot, no reset, an
    upload that PIL reads and a press on Analyze, in which the graph built
    for [k] returns a conversation whose AI texts are not blank: the page
    is the sidebar and the head of the page, the image, the button, the
    spinner, the results heading and the concatenated AI texts; the
    execution ends normally, the key is kept, and the files are those from
    before without "temp_medical_image.png". *)
Theorem analysis_shows_results_and_cleans_up inp fs k f img png conv x :
  truthy k = true →
  in_reset inp = false →
  in_upload inp = Some f →
  Image_open (upload_data f) = inr img →
  Image_encode img "PNG" = inr png →
  in_analyze inp = true →
  invoke (graph_builder ddg_search finish (ChatOpenAI k)) recursion_limit
    (initial_state (b64encode png)) Ext0 = (inr conv, x) →
  truthy (strip (combined conv)) = true →
  execute' inp fs (Some k)
  = (inr tt,
     mkWorld (delete image_path fs) (Some k)
       (page_head (Some k)
        ++ [shown_image; analyze_button; spinner; results_heading;
            (AnalysisContainer, Markdown (combined conv))])
       x).
Proof.
  intros Hk Hreset Hup Hopen Henc Han Hrun Htext.
  assert (Hr : reruns inp (Some k) = false).
  { unfold reruns. cbn [key_truthy]. by rewrite Hk. }
  rewrite execute_no_rerun, Hup, Hopen, Henc, Han by done.
  unfold agent_for. rewrite Hk.
  erewrite analysis_section_returned by exact Hrun.
  rewrite Htext. unfold remove_file, add_ui, set_ext. cbn [files OPENAI_API_KEY ui ext].
  rewrite delete_insert_eq, <- app_assoc. reflexivity.
Qed.

End ScriptRuns.

(** * Examples of the further properties *)

Lemma returned_conversation_ends_with_answer_witness :
  ∃ conv x,
    invoke (graph_builder search_ok demo_finish (stub_requests 2 "final text")) 25
      (initial_state "TWFu") Ext0 = (inr conv, x)
    ∧ initial_state "TWFu" `prefix_of` conv
    ∧ (∃ front a, conv = front ++ [AIMessage a []])
    ∧ tools_condition conv = inr END.
Proof.
  destruct (invoke (graph_builder search_ok demo_finish (stub_requests 2 "final text")) 25
              (initial_state "TWFu") Ext0) as [[e|conv] x] eqn:Hrun;
    [vm_compute in Hrun; discriminate|].
  exists conv, x. split; [reflexivity|].
  exact (returned_conversation_ends_with_answer search_ok demo_finish
           (stub_requests 2 "final text") 25 (initial_state "TWFu") conv x Hrun).
Defined.

Lemma rendered_text_is_all_replies_witness :
  ∃ conv x,
    invoke (graph_builder search_ok demo_finish (stub_requests 2 "final text")) 25
      (initial_state "TWFu") Ext0 = (inr conv, x)
    ∧ length (sent x) = 3
    ∧ List.filter is_ai conv
      = List.concat (List.map reply_messages
                       (replies (stub_requests 2 "final text") (sent x)))
    ∧ extract demo_str_parts conv
      = inr (concat_texts (List.map reply_text
                             (replies (stub_requests 2 "final text") (sent x)))).
Proof.
  destruct (invoke (graph_builder search_ok demo_finish (stub_requests 2 "final text")) 25
              (initial_state "TWFu") Ext0) as [[e|conv] x] eqn:Hrun;
    [vm_compute in Hrun; discriminate|].
  exists conv, x. split; [reflexivity|].
  split; [vm_compute in Hrun; injection Hrun as _ <-; reflexivity|].
  exact (rendered_text_is_all_replies search_ok demo_finish
           (stub_requests 2 "final text") 25 demo_str_parts "TWFu" conv x Hrun).
Defined.


Lemma unknown_tool_is_answered_with_error_witness :
  (tool_node search_ok demo_finish
     (initial_state "TWFu" ++ [AIMessage "" [unknown_call]]) Ext0).1
  = inr [ToolMessage
           "Error: web_search is not a valid tool, try one of [duckduckgo_search]."
           "web_search" "call_7"].
Proof.
  apply (unknown_tool_is_answered_with_error search_ok demo_finish
           (initial_state "TWFu") "" [unknown_call] Ext0).
  constructor; [reflexivity|constructor].
Defined.

Lemma single_call_gets_tool_output_witness :
  (tool_node search_fails demo_finish
     (initial_state "TWFu" ++ [AIMessage "" [stub_call 0]]) Ext0).1
  = inr [ToolMessage
           "Error: DuckDuckGoSearchException('Ratelimit')
 Please fix your mistakes."
           "duckduckgo_search" "call_0"].
Proof.
  apply (single_call_gets_tool_output search_fails demo_finish
           (initial_state "TWFu") "" (stub_call 0) Ext0).
  reflexivity.
Defined.

Lemma only_temp_file_touched_witness :
  let fs : gmap string (list byte) := {[ "report.txt" := [x4d; x61]%byte ]} in
  "report.txt" ≠ image_path
  ∧ files (execute (list byte) demo_open demo_encode
             (fun _ => stub_requests 1 "final text") search_ok demo_finish 25
             demo_str_parts demo_inputs fs (Some "sk-test")).2 !! "report.txt"
    = fs !! "report.txt".
Proof.
  intros fs.
  assert (H : "report.txt" ≠ image_path) by discriminate.
  split; [exact H|].
  exact (only_temp_file_touched (list byte) demo_open demo_encode
           (fun _ => stub_requests 1 "final text") search_ok demo_finish 25
           demo_str_parts demo_inputs fs (Some "sk-test") "report.txt" H).
Defined.

Lemma upload_without_analysis_leaves_file_witness :
  execute (list byte) demo_open demo_encode (fun _ => stub_always) search_ok demo_finish 25
    demo_str_parts (mkInputs "" false (Some demo_upload) false) ∅ (Some "sk-test")
  = (inr tt,
     mkWorld (<[image_path := [x4d; x61; x6e]%byte]> ∅) (Some "sk-test")
       (page_head (Some "sk-test") ++ [shown_image; analyze_button]) Ext0).
Proof.
  apply (upload_without_analysis_leaves_file (list byte) demo_open demo_encode
           (fun _ => stub_always) search_ok demo_finish 25 demo_str_parts
           (mkInputs "" false (Some demo_upload) false) ∅ (Some "sk-test")
           demo_upload [x4d; x61; x6e]%byte [x4d; x61; x6e]%byte);
    reflexivity.
Defined.

Lemma key_slot_never_empty_witness :
  key_well_formed None
  ∧ key_well_formed
      (OPENAI_API_KEY
         (execute (list byte) demo_open demo_encode (fun _ => stub_always) search_ok
            demo_finish 25 demo_str_parts (mkInputs "sk-new" false None false) ∅ None).2).
Proof.
  assert (H : key_well_formed None) by (left; reflexivity).
  split; [exact H|].
  exact (key_slot_never_empty (list byte) demo_open demo_encode (fun _ => stub_always)
           search_ok demo_finish 25 demo_str_parts (mkInputs "sk-new" false None false)
           ∅ None H).
Defined.

Lemma no_upload_shows_hint_witness :
  execute (list byte) demo_open demo_encode (fun _ => stub_always) search_ok demo_finish 25
    demo_str_parts (mkInputs "" false None false) ∅ None
  = (inr tt, mkWorld ∅ None (page_head None ++ [upload_hint]) Ext0).
Proof.
  apply (no_upload_shows_hint (list byte) demo_open demo_encode (fun _ => stub_always)
           search_ok demo_finish 25 demo_str_parts (mkInputs "" false None false) ∅ None);
    reflexivity.
Defined.

Lemma unreadable_upload_stops_the_script_witness :
  execute (list byte) open_fails demo_encode (fun _ => stub_always) search_ok demo_finish 25
    demo_str_parts demo_inputs ∅ (Some "sk-test")
  = (inl (Raised unidentified_image),
     mkWorld ∅ (Some "sk-test") (page_head (Some "sk-test")) Ext0).
Proof.
  apply (unreadable_upload_stops_the_script (list byte) open_fails demo_encode
           (fun _ => stub_always) search_ok demo_finish 25 demo_str_parts demo_inputs ∅
           (Some "sk-test") demo_upload unidentified_image);
    reflexivity.
Defined.

Lemma analysis_shows_results_and_cleans_up_witness :
  ∃ x,
    execute (list byte) demo_open demo_encode
      (fun _ => stub_requests 1 "No acute findings.") search_ok demo_finish 25
      demo_str_parts demo_inputs ∅ (Some "sk-test")
    = (inr tt,
       mkWorld (delete image_path ∅) (Some "sk-test")
         (page_head (Some "sk-test")
          ++ [shown_image; analyze_button; spinner; results_heading;
              (AnalysisContainer, Markdown "No acute findings.")])
         x)
    ∧ visited x = ["chatbot"; "tools"; "chatbot"].
Proof.
  destruct (invoke (graph_builder search_ok demo_finish
                      (stub_requests 1 "No acute findings.")) 25
              (initial_state (b64encode [x4d; x61; x6e]%byte)) Ext0)
    as [[e|conv] x] eqn:Hrun; [vm_compute in Hrun; discriminate|].
  assert (Htext : combined conv = "No acute findings.").
  { vm_compute in Hrun. injection Hrun as <- _. reflexivity. }
  assert (Hv : visited x = ["chatbot"; "tools"; "chatbot"]).
  { vm_compute in Hrun. injection Hrun as _ <-. reflexivity. }
  assert (Hshown : truthy (strip (combined conv)) = true).
  { rewrite Htext. reflexivity. }
  exists x. split; [|exact Hv].
  pose proof (analysis_shows_results_and_cleans_up (list byte) demo_open demo_encode
                (fun _ => stub_requests 1 "No acute findings.") search_ok demo_finish 25
                demo_str_parts demo_inputs ∅ "sk-test" demo_upload
                [x4d; x61; x6e]%byte [x4d; x61; x6e]%byte conv x
                eq_refl eq_refl eq_refl eq_refl eq_refl eq_refl Hrun Hshown) as H.
  rewrite Htext in H. exact H.
Defined.
